(** * Zyra Browser: the renderer's address formatter and tab manager

    A shallow embedding of [src/renderer/renderer.js].  The file ships two
    generations of the renderer script: the early single-view script (one
    static [<webview>]) and the later multi-tab script built around
    [TabManager].  Both are embedded here, each in its own module, with the
    JavaScript primitives they rely on collected in [JS]. *)

From Stdlib Require Import NArith ZArith List String Ascii Lia.
From stdpp Require Import base decidable option numbers list pretty.
From stdpp Require Import gmap strings.

(** ** JavaScript values used by the renderer *)

Module JS.

Local Open Scope N_scope.

(** A JavaScript string is a sequence of UTF-16 code units. *)
Definition jsstring := list N.

(** String literals of the source are ASCII; [js "..."] is their code units. *)
Fixpoint js (s : string) : jsstring :=
  match s with
  | EmptyString => []
  | String a s' => N_of_ascii a :: js s'
  end.
Arguments js : simpl never.

(** Abrupt completions the renderer can run into. *)
Inductive Error := TypeError | URIError.

(** The outcome of evaluating an expression: a value or a thrown error. *)
Inductive Completion (A : Type) :=
  | Normal (a : A)
  | Abrupt (e : Error).
Arguments Normal {A} a.
Arguments Abrupt {A} e.

(** ECMAScript [WhiteSpace] and [LineTerminator] code points, the characters
    [String.prototype.trim] strips. *)
Definition isWhiteSpace (c : N) : bool :=
  (c =? 0x09) || (c =? 0x0A) || (c =? 0x0B) || (c =? 0x0C) || (c =? 0x0D)
  || (c =? 0x20) || (c =? 0xA0) || (c =? 0x1680)
  || ((0x2000 <=? c) && (c <=? 0x200A))
  || (c =? 0x2028) || (c =? 0x2029) || (c =? 0x202F) || (c =? 0x205F)
  || (c =? 0x3000) || (c =? 0xFEFF).

Fixpoint trimStart (s : jsstring) : jsstring :=
  match s with
  | [] => []
  | c :: s' => if isWhiteSpace c then trimStart s' else s
  end.

Definition trimEnd (s : jsstring) : jsstring := rev (trimStart (rev s)).

(** [s.trim()] *)
Definition trim (s : jsstring) : jsstring := trimEnd (trimStart s).

Fixpoint startsWith (s p : jsstring) : bool :=
  match p, s with
  | [], _ => true
  | _ :: _, [] => false
  | a :: p', c :: s' => (a =? c) && startsWith s' p'
  end.

(** [s.includes(needle)] *)
Fixpoint includes (s needle : jsstring) : bool :=
  startsWith s needle ||
  match s with
  | [] => false
  | _ :: s' => includes s' needle
  end.

(** String truthiness: only the empty string is falsy. *)
Definition truthy (s : jsstring) : bool :=
  match s with [] => false | _ :: _ => true end.

(** [a || b] on strings. *)
Definition or_else (a b : jsstring) : jsstring := if truthy a then a else b.

(** Template substitution [${v}] of a value that is a string or [null]. *)
Definition subst (v : option jsstring) : jsstring :=
  match v with
  | Some s => s
  | None => js "null"
  end.

(** [v === s] for a value that is a string or [null], against a string. *)
Definition strict_eq (v : option jsstring) (s : jsstring) : bool :=
  bool_decide (v = Some s).

(** Number-to-string conversion of a non-negative integer (the only numbers
    the renderer concatenates into strings are [Date.now()] readings). *)
Definition numberToString (n : N) : jsstring := js (pretty n).

(** *** encodeURIComponent *)

Definition isAlpha (c : N) : bool :=
  ((0x41 <=? c) && (c <=? 0x5A)) || ((0x61 <=? c) && (c <=? 0x7A)).

Definition isDigit (c : N) : bool := (0x30 <=? c) && (c <=? 0x39).

(** [uriUnescaped]: alphanumerics and the marks - _ . ! ~ * ' ( ) *)
Definition isUriMark (c : N) : bool :=
  (c =? 0x2D) || (c =? 0x5F) || (c =? 0x2E) || (c =? 0x21) || (c =? 0x7E)
  || (c =? 0x2A) || (c =? 0x27) || (c =? 0x28) || (c =? 0x29).

Definition isUriUnescaped (c : N) : bool := isAlpha c || isDigit c || isUriMark c.

Definition isLeadingSurrogate (c : N) : bool := (0xD800 <=? c) && (c <=? 0xDBFF).
Definition isTrailingSurrogate (c : N) : bool := (0xDC00 <=? c) && (c <=? 0xDFFF).

Definition surrogatePairToCodePoint (lead trail : N) : N :=
  (lead - 0xD800) * 0x400 + (trail - 0xDC00) + 0x10000.

(** UTF-8 octets of a code point. *)
Definition utf8 (cp : N) : list N :=
  if cp <? 0x80 then [cp]
  else if cp <? 0x800 then
    [N.lor 0xC0 (N.shiftr cp 6); N.lor 0x80 (N.land cp 0x3F)]
  else if cp <? 0x10000 then
    [N.lor 0xE0 (N.shiftr cp 12);
     N.lor 0x80 (N.land (N.shiftr cp 6) 0x3F);
     N.lor 0x80 (N.land cp 0x3F)]
  else
    [N.lor 0xF0 (N.shiftr cp 18);
     N.lor 0x80 (N.land (N.shiftr cp 12) 0x3F);
     N.lor 0x80 (N.land (N.shiftr cp 6) 0x3F);
     N.lor 0x80 (N.land cp 0x3F)].

Definition hexDigit (d : N) : N := if d <? 10 then 0x30 + d else 0x41 + (d - 10).

(** One octet as [%XX], upper-case hexadecimal. *)
Definition percentEncode (octet : N) : jsstring :=
  [0x25; hexDigit (N.shiftr octet 4); hexDigit (N.land octet 0xF)].

Definition percentEncodeAll (octets : list N) : jsstring :=
  concat (map percentEncode octets).

(** The [Encode] loop of ECMAScript with the [uriUnescaped] set: unescaped
    code units are copied, every other code point is written as the
    percent-encoding of its UTF-8 octets, and an unpaired surrogate is a
    [URIError]. *)
Fixpoint encode (s : jsstring) : option jsstring :=
  match s with
  | [] => Some []
  | c :: rest =>
    if isUriUnescaped c then (c ::.) <$> encode rest
    else if isTrailingSurrogate c then None
    else if isLeadingSurrogate c then
      match rest with
      | [] => None
      | d :: rest' =>
        if isTrailingSurrogate d
        then (percentEncodeAll (utf8 (surrogatePairToCodePoint c d)) ++.) <$> encode rest'
        else None
      end
    else (percentEncodeAll (utf8 c) ++.) <$> encode rest
  end.

Definition encodeURIComponent (s : jsstring) : Completion jsstring :=
  match encode s with
  | Some r => Normal r
  | None => Abrupt URIError
  end.

(** A string is well-formed UTF-16 when every surrogate is part of a pair. *)
Fixpoint isWellFormed (s : jsstring) : bool :=
  match s with
  | [] => true
  | c :: rest =>
    if isTrailingSurrogate c then false
    else if isLeadingSurrogate c then
      match rest with
      | [] => false
      | d :: rest' => isTrailingSurrogate d && isWellFormed rest'
      end
    else isWellFormed rest
  end.

(** *** The regular expression [/^https?:\/\//i]

    Without the [u] flag, case-insensitive matching canonicalises a code unit
    through [toUpperCase] and never maps a non-ASCII unit to an ASCII one, so
    a pattern letter matches exactly its two ASCII cases. *)
Definition matchLetter (lower c : N) : bool := (c =? lower) || (c =? lower - 0x20).

Definition test_http_scheme (s : jsstring) : bool :=
  match s with
  | h :: t1 :: t2 :: p :: rest =>
    matchLetter 0x68 h && matchLetter 0x74 t1 && matchLetter 0x74 t2
    && matchLetter 0x70 p &&
    (match rest with
     | c :: rest' => matchLetter 0x73 c && startsWith rest' (js "://")
     | [] => false
     end || startsWith rest (js "://"))
  | _ => false
  end.

(** The characters that delimit the parts of a URL's query: space and
    # & + / = ? *)
Definition isQueryDelimiter (c : N) : bool :=
  (c =? 0x20) || (c =? 0x23) || (c =? 0x26) || (c =? 0x2B) || (c =? 0x2F)
  || (c =? 0x3D) || (c =? 0x3F).

(** Every element is a UTF-16 code unit. *)
Definition isString (s : jsstring) : bool := forallb (fun c => c <? 0x10000) s.

(** The characters [encodeURIComponent] can produce: the unescaped ones and
    the percent sign. *)
Definition isEncoded (c : N) : bool := isUriUnescaped c || (c =? 0x25).

(** A string without white space at either end. *)
Definition isTrimmed (s : jsstring) : bool :=
  match s with [] => true | c :: _ => negb (isWhiteSpace c) end &&
  match rev s with [] => true | c :: _ => negb (isWhiteSpace c) end.

(** [s.replace(pattern, replacement)] for a string pattern and a replacement
    without [$]: the first occurrence is replaced. *)
Fixpoint replace (s pattern replacement : jsstring) : jsstring :=
  if startsWith s pattern then replacement ++ drop (length pattern) s
  else match s with
       | [] => []
       | c :: s' => c :: replace s' pattern replacement
       end.

End JS.
Import JS.

(** ** The early single-view renderer *)

Module SingleView.

(** The static [<webview id="webview">] element: its [src] attribute and what
    the platform reports and receives for it. *)
Inductive ViewCall := GoBack | GoForward | Reload | OpenDevTools | CloseDevTools.

Record Webview := {
  src : jsstring;
  getURL : jsstring;
  canGoBack : bool;
  canGoForward : bool;
  calls : list ViewCall
}.

Record State := {
  isDevToolsOpen : bool;
  isLoading : bool;
  webview : Webview;
  urlInput_value : jsstring;
  urlInput_focused : bool          (* [document.activeElement === urlInput] *)
}.

Definition call (c : ViewCall) (w : Webview) : Webview :=
  {| src := src w; getURL := getURL w; canGoBack := canGoBack w;
     canGoForward := canGoForward w; calls := calls w ++ [c] |}.

Definition set_webview (w : Webview) (st : State) : State :=
  {| isDevToolsOpen := isDevToolsOpen st; isLoading := isLoading st;
     webview := w; urlInput_value := urlInput_value st;
     urlInput_focused := urlInput_focused st |}.

Definition set_urlInput_value (v : jsstring) (st : State) : State :=
  {| isDevToolsOpen := isDevToolsOpen st; isLoading := isLoading st;
     webview := webview st; urlInput_value := v;
     urlInput_focused := urlInput_focused st |}.

Section WithURL.

(** The platform's [URL] constructor, reduced to what [isValidUrl] observes:
    the [protocol] of the parsed URL, or [None] when the constructor throws. *)
Variable URL_protocol : jsstring -> option jsstring.

Definition isValidUrl (string : jsstring) : bool :=
  match URL_protocol string with
  | Some protocol =>
    bool_decide (protocol = js "http:") || bool_decide (protocol = js "https:")
  | None => false
  end.

Definition formatUrl (input : jsstring) (st : State) : Completion jsstring :=
  let input := trim input in
  if negb (truthy input) then
    Normal (or_else (src (webview st)) (js "https://www.google.com"))
  else if isValidUrl input then Normal input
  else if includes input (js ".") && negb (includes input (js " ")) then
    Normal (js "https://" ++ input)
  else
    match encodeURIComponent input with
    | Normal q => Normal (js "https://www.google.com/search?q=" ++ q)
    | Abrupt e => Abrupt e
    end.

End WithURL.

Definition goBack (st : State) : State :=
  if canGoBack (webview st) then set_webview (call GoBack (webview st)) st else st.

Definition goForward (st : State) : State :=
  if canGoForward (webview st) then set_webview (call GoForward (webview st)) st
  else st.

Definition updateUrlBar (url : jsstring) (st : State) : State :=
  if negb (urlInput_focused st) then set_urlInput_value url st else st.

(** The [keydown] listener of the address bar.  Enter navigates to the text
    in the bar and removes the focus; Escape removes the focus and then
    restores the address of the page shown. *)
Definition set_urlInput_focused (b : bool) (st : State) : State :=
  {| isDevToolsOpen := isDevToolsOpen st; isLoading := isLoading st;
     webview := webview st; urlInput_value := urlInput_value st;
     urlInput_focused := b |}.

Definition set_src (u : jsstring) (w : Webview) : Webview :=
  {| src := u; getURL := getURL w; canGoBack := canGoBack w;
     canGoForward := canGoForward w; calls := calls w |}.

Section Keys.

Variable URL_protocol : jsstring -> option jsstring.

Definition navigateTo (url : jsstring) (st : State) : Completion State :=
  match formatUrl URL_protocol url st with
  | Normal formattedUrl => Normal (set_webview (set_src formattedUrl (webview st)) st)
  | Abrupt e => Abrupt e
  end.

Definition urlInput_keydown (key : jsstring) (st : State) : Completion State :=
  match
    (if bool_decide (key = js "Enter") then
       match navigateTo (urlInput_value st) st with
       | Normal st' => Normal (set_urlInput_focused false st')
       | Abrupt e => Abrupt e
       end
     else Normal st)
  with
  | Normal st =>
    if bool_decide (key = js "Escape") then
      let st := set_urlInput_focused false st in
      Normal (updateUrlBar (getURL (webview st)) st)
    else Normal st
  | Abrupt e => Abrupt e
  end.

End Keys.

End SingleView.


(** ** The multi-tab renderer *)

Module MultiTab.

(** *** State and document

    [state] of the script and the part of the document the tab manager reads
    and writes.  The static page is not part of the sources at hand; its
    elements are taken to carry no id of the form [btn-tab-...] or
    [view-tab-...], so that a lookup of such an id can only find an element
    the tab manager created, and [.tab] and [webview] select exactly the
    children of the tab bar and of the views container. *)

(** An entry of [state.tabs]: [{ id, url, title, isLoading }]. *)
Record TabData := {
  id : jsstring;
  url : jsstring;
  title : jsstring;
  isLoading : bool
}.

(** A tab button [div.tab]: its id, whether its class list holds [active],
    and the text of its [.tab-title] span. *)
Record TabEl := {
  tabEl_id : jsstring;
  tabEl_active : bool;
  tabEl_title : jsstring
}.

(** [style.display] of a webview. *)
Inductive Display := DisplayUnset | DisplayFlex | DisplayNone.

(** Methods with an effect that the renderer calls on a webview. *)
Inductive ViewCall := GoBack | GoForward | Reload.

(** A [<webview>] element: id, [src] attribute and [style.display], what the
    platform currently answers to [getURL()], [canGoBack()] and
    [canGoForward()], and the effectful calls made on it so far. *)
Record ViewEl := {
  viewEl_id : jsstring;
  viewEl_src : jsstring;
  viewEl_display : Display;
  getURL : jsstring;
  canGoBack : bool;
  canGoForward : bool;
  calls : list ViewCall
}.

(** A pending [setTimeout] callback. *)
Inductive Timeout := RemoveComplete (delay : N).

Record State := {
  (* state *)
  tabs : list TabData;
  activeTabId : option jsstring;
  isSplitView : bool;
  splitTabId : option jsstring;
  (* document *)
  tabBar : list TabEl;
  viewsContainer : list ViewEl;
  urlInput_value : jsstring;
  urlInput_focused : bool;         (* [document.activeElement === urlInput] *)
  btnBack_disabled : bool;
  btnForward_disabled : bool;
  loadingBar_loading : bool;       (* class [loading] *)
  loadingBar_complete : bool;      (* class [complete] *)
  timeouts : list Timeout;
  document_title : jsstring
}.

(** The state the script starts from, before [DOMContentLoaded]. *)
Definition initial : State :=
  {| tabs := []; activeTabId := None; isSplitView := false; splitTabId := None;
     tabBar := []; viewsContainer := []; urlInput_value := [];
     urlInput_focused := false; btnBack_disabled := false;
     btnForward_disabled := false; loadingBar_loading := false;
     loadingBar_complete := false; timeouts := []; document_title := [] |}.

Definition set_tabs (v : list TabData) (s : State) : State :=
  {| tabs := v; activeTabId := activeTabId s; isSplitView := isSplitView s;
     splitTabId := splitTabId s; tabBar := tabBar s;
     viewsContainer := viewsContainer s; urlInput_value := urlInput_value s;
     urlInput_focused := urlInput_focused s;
     btnBack_disabled := btnBack_disabled s;
     btnForward_disabled := btnForward_disabled s;
     loadingBar_loading := loadingBar_loading s;
     loadingBar_complete := loadingBar_complete s; timeouts := timeouts s;
     document_title := document_title s |}.

Definition set_activeTabId (v : option jsstring) (s : State) : State :=
  {| tabs := tabs s; activeTabId := v; isSplitView := isSplitView s;
     splitTabId := splitTabId s; tabBar := tabBar s;
     viewsContainer := viewsContainer s; urlInput_value := urlInput_value s;
     urlInput_focused := urlInput_focused s;
     btnBack_disabled := btnBack_disabled s;
     btnForward_disabled := btnForward_disabled s;
     loadingBar_loading := loadingBar_loading s;
     loadingBar_complete := loadingBar_complete s; timeouts := timeouts s;
     document_title := document_title s |}.

Definition set_tabBar (v : list TabEl) (s : State) : State :=
  {| tabs := tabs s; activeTabId := activeTabId s; isSplitView := isSplitView s;
     splitTabId := splitTabId s; tabBar := v;
     viewsContainer := viewsContainer s; urlInput_value := urlInput_value s;
     urlInput_focused := urlInput_focused s;
     btnBack_disabled := btnBack_disabled s;
     btnForward_disabled := btnForward_disabled s;
     loadingBar_loading := loadingBar_loading s;
     loadingBar_complete := loadingBar_complete s; timeouts := timeouts s;
     document_title := document_title s |}.

Definition set_viewsContainer (v : list ViewEl) (s : State) : State :=
  {| tabs := tabs s; activeTabId := activeTabId s; isSplitView := isSplitView s;
     splitTabId := splitTabId s; tabBar := tabBar s;
     viewsContainer := v; urlInput_value := urlInput_value s;
     urlInput_focused := urlInput_focused s;
     btnBack_disabled := btnBack_disabled s;
     btnForward_disabled := btnForward_disabled s;
     loadingBar_loading := loadingBar_loading s;
     loadingBar_complete := loadingBar_complete s; timeouts := timeouts s;
     document_title := document_title s |}.

Definition set_urlInput_value (v : jsstring) (s : State) : State :=
  {| tabs := tabs s; activeTabId := activeTabId s; isSplitView := isSplitView s;
     splitTabId := splitTabId s; tabBar := tabBar s;
     viewsContainer := viewsContainer s; urlInput_value := v;
     urlInput_focused := urlInput_focused s;
     btnBack_disabled := btnBack_disabled s;
     btnForward_disabled := btnForward_disabled s;
     loadingBar_loading := loadingBar_loading s;
     loadingBar_complete := loadingBar_complete s; timeouts := timeouts s;
     document_title := document_title s |}.

Definition set_navButtons (back forward : bool) (s : State) : State :=
  {| tabs := tabs s; activeTabId := activeTabId s; isSplitView := isSplitView s;
     splitTabId := splitTabId s; tabBar := tabBar s;
     viewsContainer := viewsContainer s; urlInput_value := urlInput_value s;
     urlInput_focused := urlInput_focused s;
     btnBack_disabled := back;
     btnForward_disabled := forward;
     loadingBar_loading := loadingBar_loading s;
     loadingBar_complete := loadingBar_complete s; timeouts := timeouts s;
     document_title := document_title s |}.

Definition set_loadingBar (loading complete : bool) (s : State) : State :=
  {| tabs := tabs s; activeTabId := activeTabId s; isSplitView := isSplitView s;
     splitTabId := splitTabId s; tabBar := tabBar s;
     viewsContainer := viewsContainer s; urlInput_value := urlInput_value s;
     urlInput_focused := urlInput_focused s;
     btnBack_disabled := btnBack_disabled s;
     btnForward_disabled := btnForward_disabled s;
     loadingBar_loading := loading;
     loadingBar_complete := complete; timeouts := timeouts s;
     document_title := document_title s |}.

Definition set_timeouts (v : list Timeout) (s : State) : State :=
  {| tabs := tabs s; activeTabId := activeTabId s; isSplitView := isSplitView s;
     splitTabId := splitTabId s; tabBar := tabBar s;
     viewsContainer := viewsContainer s; urlInput_value := urlInput_value s;
     urlInput_focused := urlInput_focused s;
     btnBack_disabled := btnBack_disabled s;
     btnForward_disabled := btnForward_disabled s;
     loadingBar_loading := loadingBar_loading s;
     loadingBar_complete := loadingBar_complete s; timeouts := v;
     document_title := document_title s |}.

Definition set_document_title (v : jsstring) (s : State) : State :=
  {| tabs := tabs s; activeTabId := activeTabId s; isSplitView := isSplitView s;
     splitTabId := splitTabId s; tabBar := tabBar s;
     viewsContainer := viewsContainer s; urlInput_value := urlInput_value s;
     urlInput_focused := urlInput_focused s;
     btnBack_disabled := btnBack_disabled s;
     btnForward_disabled := btnForward_disabled s;
     loadingBar_loading := loadingBar_loading s;
     loadingBar_complete := loadingBar_complete s; timeouts := timeouts s;
     document_title := v |}.

(** Element updates. *)
Definition tabEl_set_active (b : bool) (e : TabEl) : TabEl :=
  {| tabEl_id := tabEl_id e; tabEl_active := b; tabEl_title := tabEl_title e |}.

Definition tabEl_set_title (t : jsstring) (e : TabEl) : TabEl :=
  {| tabEl_id := tabEl_id e; tabEl_active := tabEl_active e; tabEl_title := t |}.

Definition viewEl_set_display (d : Display) (v : ViewEl) : ViewEl :=
  {| viewEl_id := viewEl_id v; viewEl_src := viewEl_src v; viewEl_display := d;
     getURL := getURL v; canGoBack := canGoBack v;
     canGoForward := canGoForward v; calls := calls v |}.

Definition viewEl_set_src (u : jsstring) (v : ViewEl) : ViewEl :=
  {| viewEl_id := viewEl_id v; viewEl_src := u;
     viewEl_display := viewEl_display v; getURL := getURL v;
     canGoBack := canGoBack v; canGoForward := canGoForward v;
     calls := calls v |}.

Definition viewEl_call (c : ViewCall) (v : ViewEl) : ViewEl :=
  {| viewEl_id := viewEl_id v; viewEl_src := viewEl_src v;
     viewEl_display := viewEl_display v; getURL := getURL v;
     canGoBack := canGoBack v; canGoForward := canGoForward v;
     calls := calls v ++ [c] |}.

(** *** Statements: state passing with exceptions

    A statement either returns a value or throws; in both cases the
    mutations made so far stay in the state. *)
Inductive Res (A : Type) :=
  | Ok (a : A) (s : State)
  | Thrown (e : Error) (s : State).
Arguments Ok {A} a s.
Arguments Thrown {A} e s.

Definition M (A : Type) := State -> Res A.

Definition ret {A} (a : A) : M A := fun s => Ok a s.
Definition throw {A} (e : Error) : M A := fun s => Thrown e s.
Definition bind {A B} (m : M A) (k : A -> M B) : M B :=
  fun s => match m s with
           | Ok a s' => k a s'
           | Thrown e s' => Thrown e s'
           end.
Definition get : M State := fun s => Ok s s.
Definition modify (f : State -> State) : M unit := fun s => Ok tt (f s).

Notation "x <- m ;; k" := (bind m (fun x => k))
  (at level 100, m at next level, right associativity).
Notation "m ;; k" := (bind m (fun _ => k))
  (at level 100, right associativity).

(** The state a statement leaves behind, however it completes. *)
Definition final {A} (r : Res A) : State :=
  match r with Ok _ s => s | Thrown _ s => s end.

(** [document.getElementById] for an id of a tab button, resp. of a webview:
    the first element in document order carrying the id, with its position
    among its siblings, or [None] for [null]. *)
Definition getTabElById (i : jsstring) (s : State) : option (nat * TabEl) :=
  list_find (fun e => tabEl_id e = i) (tabBar s).

Definition getViewElById (i : jsstring) (s : State) : option (nat * ViewEl) :=
  list_find (fun v => viewEl_id v = i) (viewsContainer s).

(** [array.findIndex]: the first index satisfying the predicate, or -1. *)
Definition findIndex {A} (P : A -> Prop) `{forall x, Decision (P x)}
    (l : list A) : Z :=
  match list_find P l with
  | Some (i, _) => Z.of_nat i
  | None => (-1)%Z
  end.

(** [array[i]] for an integer [i]; [None] is [undefined]. *)
Definition index {A} (l : list A) (i : Z) : option A :=
  if (i <? 0)%Z then None else l !! Z.to_nat i.

(** [array.splice(start, 1)]: a negative [start] counts from the end, and
    nothing is removed when the start lies at or past the end. *)
Definition splice1 {A} (start : Z) (l : list A) : list A :=
  let len := Z.of_nat (length l) in
  let actualStart :=
    if (start <? 0)%Z then Z.max (len + start) 0 else Z.min start len in
  delete (Z.to_nat actualStart) l.

(** *** URL utilities *)

Definition formatUrl (input : jsstring) : Completion jsstring :=
  if negb (truthy input) then Normal (js "home.html")
  else
    let url := trim input in
    if includes url (js " ") || negb (includes url (js ".")) then
      match encodeURIComponent url with
      | Normal q => Normal (js "https://www.google.com/search?q=" ++ q)
      | Abrupt e => Abrupt e
      end
    else if negb (test_http_scheme url) then Normal (js "https://" ++ url)
    else Normal url.

(** The fixed part of a search address. *)
Definition search_prefix : jsstring := js "https://www.google.com/search?q=".

(** *** Navigation and UI helpers *)

Definition getActiveWebview : M (option (nat * ViewEl)) :=
  fun s => Ok (getViewElById (js "view-" ++ subst (activeTabId s)) s) s.

Definition updateNavigationButtons : M unit :=
  webview <- getActiveWebview ;;
  match webview with
  | Some (_, v) =>
    modify (set_navButtons (negb (canGoBack v)) (negb (canGoForward v)))
  | None => ret tt
  end.

(** A method call on the webview found at position [i]. *)
Definition callView (i : nat) (c : ViewCall) : M unit :=
  modify (fun s => set_viewsContainer (alter (viewEl_call c) i (viewsContainer s)) s).

Definition navigateTo (url : jsstring) : M unit :=
  webview <- getActiveWebview ;;
  match webview with
  | Some (i, _) =>
    match formatUrl url with
    | Normal u =>
      modify (fun s =>
        set_viewsContainer (alter (viewEl_set_src u) i (viewsContainer s)) s)
    | Abrupt e => throw e
    end
  | None => ret tt
  end.

Definition reload : M unit :=
  webview <- getActiveWebview ;;
  match webview with
  | Some (i, _) => callView i Reload
  | None => ret tt
  end.

Definition goBack : M unit :=
  webview <- getActiveWebview ;;
  match webview with
  | Some (i, v) => if canGoBack v then callView i GoBack else ret tt
  | None => ret tt
  end.

Definition goForward : M unit :=
  webview <- getActiveWebview ;;
  match webview with
  | Some (i, v) => if canGoForward v then callView i GoForward else ret tt
  | None => ret tt
  end.

(** *** TabManager *)

Definition switchTab (tabId : jsstring) : M unit :=
  modify (set_activeTabId (Some tabId)) ;;
  (* Update UI Tabs *)
  modify (fun s => set_tabBar (tabEl_set_active false <$> tabBar s) s) ;;
  btn <- (fun s => Ok (getTabElById (js "btn-" ++ tabId) s) s) ;;
  match btn with
  | Some (i, _) =>
    modify (fun s => set_tabBar (alter (tabEl_set_active true) i (tabBar s)) s)
  | None => throw TypeError
  end ;;
  (* Update Webviews (Show active, hide others) *)
  modify (fun s =>
    set_viewsContainer
      ((fun v =>
          viewEl_set_display
            (if bool_decide (viewEl_id v = js "view-" ++ tabId)
             then DisplayFlex else DisplayNone) v) <$> viewsContainer s) s) ;;
  activeWebview <- getActiveWebview ;;
  match activeWebview with
  | Some (_, v) =>
    modify (set_urlInput_value (getURL v)) ;;
    updateNavigationButtons
  | None => ret tt
  end ;;
  (* Handle Split View visibility *)
  s <- get ;;
  if isSplitView s && from_option truthy false (splitTabId s) then
    splitView <- (fun s => Ok (getViewElById (js "view-" ++ subst (splitTabId s)) s) s) ;;
    match splitView with
    | Some (i, _) =>
      modify (fun s =>
        set_viewsContainer
          (alter (viewEl_set_display DisplayFlex) i (viewsContainer s)) s)
    | None => ret tt
    end
  else ret tt.

(** [createTab(url, activate)], run when [Date.now()] reads [now].  The new
    webview starts out reporting its starting address and an empty history. *)
Definition createTab (now : N) (url : jsstring) (activate : bool) : M jsstring :=
  let tabId := js "tab-" ++ numberToString now in
  let tabData :=
    {| id := tabId; url := url; title := js "New Tab"; isLoading := true |} in
  modify (fun s => set_tabs (tabs s ++ [tabData]) s) ;;
  (* 1. Create Tab Button in UI *)
  let tabEl :=
    {| tabEl_id := js "btn-" ++ tabId; tabEl_active := false;
       tabEl_title := js "New Tab" |} in
  modify (fun s => set_tabBar (tabBar s ++ [tabEl]) s) ;;
  (* 2. Create Webview *)
  let viewEl :=
    {| viewEl_id := js "view-" ++ tabId; viewEl_src := url;
       viewEl_display := DisplayUnset; getURL := url; canGoBack := false;
       canGoForward := false; calls := [] |} in
  modify (fun s => set_viewsContainer (viewsContainer s ++ [viewEl]) s) ;;
  (if activate then switchTab tabId else ret tt) ;;
  ret tabId.

(** The defaults of [createTab]'s parameters. *)
Definition default_url : jsstring := js "home.html".
Definition default_activate : bool := true.

Definition closeTab (tabId : jsstring) : M unit :=
  s <- get ;;
  if bool_decide (length (tabs s) <= 1)%nat then ret tt (* Don't close last tab *)
  else
    let index_ := findIndex (fun t => id t = tabId) (tabs s) in
    modify (fun s => set_tabs (splice1 index_ (tabs s)) s) ;;
    btn <- (fun s => Ok (getTabElById (js "btn-" ++ tabId) s) s) ;;
    match btn with
    | Some (i, _) => modify (fun s => set_tabBar (delete i (tabBar s)) s)
    | None => throw TypeError
    end ;;
    view <- (fun s => Ok (getViewElById (js "view-" ++ tabId) s) s) ;;
    match view with
    | Some (i, _) =>
      modify (fun s => set_viewsContainer (delete i (viewsContainer s)) s)
    | None => throw TypeError
    end ;;
    (* Switch to neighbor if closed tab was active *)
    s <- get ;;
    if strict_eq (activeTabId s) tabId then
      let nextTab :=
        match index (tabs s) index_ with
        | Some t => Some t
        | None => index (tabs s) (index_ - 1)
        end in
      match nextTab with
      | Some t => switchTab (id t)
      | None => throw TypeError
      end
    else ret tt.

Definition updateLoading (tabId : jsstring) (isLoading : bool) : M unit :=
  s <- get ;;
  if strict_eq (activeTabId s) tabId then
    (if isLoading then modify (set_loadingBar true false)
     else
       modify (set_loadingBar false true) ;;
       modify (fun s => set_timeouts (timeouts s ++ [RemoveComplete 600]) s)) ;;
    updateNavigationButtons
  else ret tt.

Definition updateTitle (tabId : jsstring) (title : jsstring) : M unit :=
  tabEl <- (fun s => Ok (getTabElById (js "btn-" ++ tabId) s) s) ;;
  match tabEl with
  | Some (i, _) =>
    modify (fun s =>
      set_tabBar
        (alter (tabEl_set_title (or_else title (js "Untitled"))) i (tabBar s)) s)
  | None => ret tt
  end ;;
  s <- get ;;
  if strict_eq (activeTabId s) tabId
  then modify (set_document_title (title ++ js " - Zy Browser"))
  else ret tt.

Definition updateUrl (tabId : jsstring) (url : jsstring) : M unit :=
  s <- get ;;
  if strict_eq (activeTabId s) tabId then
    modify (set_urlInput_value url) ;;
    updateNavigationButtons
  else ret tt.

(** The events of a webview and the listeners [createTab] attaches to the
    view of tab [tabId]. *)
Inductive ViewEvent :=
  | DidStartLoading
  | DidStopLoading
  | PageTitleUpdated (title : jsstring)
  | DidNavigate (url : jsstring)
  | DidNavigateInPage (url : jsstring)
  | NewWindow (url : jsstring).

Definition dispatch (now : N) (tabId : jsstring) (e : ViewEvent) : M unit :=
  match e with
  | DidStartLoading => updateLoading tabId true
  | DidStopLoading => updateLoading tabId false
  | PageTitleUpdated t => updateTitle tabId t
  | DidNavigate u => updateUrl tabId u
  | DidNavigateInPage u => updateUrl tabId u
  | NewWindow u => createTab now u default_activate ;; ret tt
  end.

(** The ids [createTab] issues start with [tab-]; the listeners of a webview
    are bound with the id of the tab the view was created for. *)
Definition isTabId (tabId : jsstring) : bool := startsWith tabId (js "tab-").

(** A run of webview events, each given with the clock reading at that
    moment and the id its listener was bound with. *)
Fixpoint dispatchAll (events : list (N * jsstring * ViewEvent)) : M unit :=
  match events with
  | [] => ret tt
  | (now, tabId, e) :: events' =>
    dispatch now tabId e ;;
    dispatchAll events'
  end.

(** The records that the [new-window] listeners push in a run of events,
    as [createTab] builds them. *)
Definition opened (events : list (N * jsstring * ViewEvent)) : list TabData :=
  omap (fun ev : N * jsstring * ViewEvent =>
          match ev.2 with
          | NewWindow u =>
            Some {| id := js "tab-" ++ numberToString ev.1.1; url := u;
                    title := js "New Tab"; isLoading := true |}
          | _ => None
          end) events.

(** A run of [createTab] calls, one per clock reading, collecting the ids
    returned. *)
Fixpoint createTabs (calls : list (N * jsstring * bool)) : M (list jsstring) :=
  match calls with
  | [] => ret []
  | (now, url, activate) :: calls' =>
    tabId <- createTab now url activate ;;
    ids <- createTabs calls' ;;
    ret (tabId :: ids)
  end.

(** The state [createTab] hands to [switchTab]: record, button and webview
    appended. *)
Definition created (now : N) (url : jsstring) (st : State) : State :=
  let tabId := js "tab-" ++ numberToString now in
  set_viewsContainer
    (viewsContainer st ++
       [{| viewEl_id := js "view-" ++ tabId; viewEl_src := url;
           viewEl_display := DisplayUnset; getURL := url; canGoBack := false;
           canGoForward := false; calls := [] |}])
    (set_tabBar
       (tabBar st ++
          [{| tabEl_id := js "btn-" ++ tabId; tabEl_active := false;
              tabEl_title := js "New Tab" |}])
       (set_tabs
          (tabs st ++
             [{| id := tabId; url := url; title := js "New Tab";
                 isLoading := true |}]) st)).

(** Sample sessions: tabs A, B and C ([tab-1], [tab-2], [tab-3]) opened one
    after the other with the default arguments. *)
Definition one_tab : State :=
  final (createTab 1 default_url default_activate initial).
Definition two_tabs : State :=
  final (createTab 2 default_url default_activate one_tab).
Definition three_tabs : State :=
  final (createTab 3 default_url default_activate two_tabs).

(** Two tabs on different sites, the second one active. *)
Definition two_sites : State :=
  final (createTab 2 (js "https://b.example/") default_activate
           (final (createTab 1 (js "https://a.example/") default_activate
                     initial))).

(** The user clicks into the address bar and types [text] without
    submitting it. *)
Definition focus_and_type (text : jsstring) (s : State) : State :=
  {| tabs := tabs s; activeTabId := activeTabId s; isSplitView := isSplitView s;
     splitTabId := splitTabId s; tabBar := tabBar s;
     viewsContainer := viewsContainer s; urlInput_value := text;
     urlInput_focused := true;
     btnBack_disabled := btnBack_disabled s;
     btnForward_disabled := btnForward_disabled s;
     loadingBar_loading := loadingBar_loading s;
     loadingBar_complete := loadingBar_complete s; timeouts := timeouts s;
     document_title := document_title s |}.

(** The platform's side of a webview moves on: the view at position [i] now
    reports the address [u] and the given back/forward availability. *)
Definition view_reports (i : nat) (u : jsstring) (back forward : bool)
    (s : State) : State :=
  set_viewsContainer
    (alter (fun v =>
              {| viewEl_id := viewEl_id v; viewEl_src := viewEl_src v;
                 viewEl_display := viewEl_display v; getURL := u;
                 canGoBack := back; canGoForward := forward;
                 calls := calls v |}) i (viewsContainer s)) s.

(** Every tab has its button and its webview, in tab order. *)
Definition paired (s : State) : Prop :=
  tabEl_id <$> tabBar s = (fun t => js "btn-" ++ id t) <$> tabs s /\
  viewEl_id <$> viewsContainer s = (fun t => js "view-" ++ id t) <$> tabs s.

(** [tabId] references a live tab. *)
Definition live (tabId : jsstring) (s : State) : Prop :=
  exists t, In t (tabs s) /\ id t = tabId.

(** *** The rest of the page: address bar keys, split view, user actions *)

Definition set_isSplitView (v : bool) (s : State) : State :=
  {| tabs := tabs s; activeTabId := activeTabId s; isSplitView := v;
     splitTabId := splitTabId s; tabBar := tabBar s;
     viewsContainer := viewsContainer s; urlInput_value := urlInput_value s;
     urlInput_focused := urlInput_focused s;
     btnBack_disabled := btnBack_disabled s;
     btnForward_disabled := btnForward_disabled s;
     loadingBar_loading := loadingBar_loading s;
     loadingBar_complete := loadingBar_complete s; timeouts := timeouts s;
     document_title := document_title s |}.

Definition set_splitTabId (v : option jsstring) (s : State) : State :=
  {| tabs := tabs s; activeTabId := activeTabId s; isSplitView := isSplitView s;
     splitTabId := v; tabBar := tabBar s;
     viewsContainer := viewsContainer s; urlInput_value := urlInput_value s;
     urlInput_focused := urlInput_focused s;
     btnBack_disabled := btnBack_disabled s;
     btnForward_disabled := btnForward_disabled s;
     loadingBar_loading := loadingBar_loading s;
     loadingBar_complete := loadingBar_complete s; timeouts := timeouts s;
     document_title := document_title s |}.

Definition set_urlInput_focused (v : bool) (s : State) : State :=
  {| tabs := tabs s; activeTabId := activeTabId s; isSplitView := isSplitView s;
     splitTabId := splitTabId s; tabBar := tabBar s;
     viewsContainer := viewsContainer s; urlInput_value := urlInput_value s;
     urlInput_focused := v;
     btnBack_disabled := btnBack_disabled s;
     btnForward_disabled := btnForward_disabled s;
     loadingBar_loading := loadingBar_loading s;
     loadingBar_complete := loadingBar_complete s; timeouts := timeouts s;
     document_title := document_title s |}.

(** The state [closeTab] reaches once it has removed the record, the button
    and the webview found at position [i]. *)
Definition closed (i : nat) (s : State) : State :=
  set_viewsContainer (delete i (viewsContainer s))
    (set_tabBar (delete i (tabBar s)) (set_tabs (delete i (tabs s)) s)).

(** The neighbour [closeTab] picks once the tab at index [i] is gone. *)
Definition neighbour (i : nat) (l : list TabData) : option TabData :=
  match index (delete i l) (Z.of_nat i) with
  | Some t => Some t
  | None => index (delete i l) (Z.of_nat i - 1)
  end.

(** [TabManager.switchTab(v)] for an argument that is a string or [null],
    as in [TabManager.switchTab(state.activeTabId)]. *)
Definition switchTabTo (v : option jsstring) : M unit :=
  modify (set_activeTabId v) ;;
  modify (fun s => set_tabBar (tabEl_set_active false <$> tabBar s) s) ;;
  btn <- (fun s => Ok (getTabElById (js "btn-" ++ subst v) s) s) ;;
  match btn with
  | Some (i, _) =>
    modify (fun s => set_tabBar (alter (tabEl_set_active true) i (tabBar s)) s)
  | None => throw TypeError
  end ;;
  modify (fun s =>
    set_viewsContainer
      ((fun w =>
          viewEl_set_display
            (if bool_decide (viewEl_id w = js "view-" ++ subst v)
             then DisplayFlex else DisplayNone) w) <$> viewsContainer s) s) ;;
  activeWebview <- getActiveWebview ;;
  match activeWebview with
  | Some (_, w) =>
    modify (set_urlInput_value (getURL w)) ;;
    updateNavigationButtons
  | None => ret tt
  end ;;
  s <- get ;;
  if isSplitView s && from_option truthy false (splitTabId s) then
    splitView <- (fun s => Ok (getViewElById (js "view-" ++ subst (splitTabId s)) s) s) ;;
    match splitView with
    | Some (i, _) =>
      modify (fun s =>
        set_viewsContainer
          (alter (viewEl_set_display DisplayFlex) i (viewsContainer s)) s)
    | None => ret tt
    end
  else ret tt.

(** The split partner a tab switch shows again, if any. *)
Definition split_partner (s : State) : option nat :=
  if isSplitView s && from_option truthy false (splitTabId s)
  then fst <$> getViewElById (js "view-" ++ subst (splitTabId s)) s
  else None.

(** The [keydown] listener of the address bar: on Enter the text in the bar
    is navigated to and the bar loses focus. *)
Definition urlInput_keydown (key : jsstring) : M unit :=
  if bool_decide (key = js "Enter") then
    s <- get ;;
    navigateTo (urlInput_value s) ;;
    modify (set_urlInput_focused false)
  else ret tt.

(** [style.display] of the views container. *)
Inductive ContainerDisplay := ContainerUnset | ContainerGrid | ContainerBlock.

(** The state together with the style of the views container and the
    [active] class of the split-view button. *)
Record Page := {
  page_state : State;
  container_display : ContainerDisplay;
  container_gridTemplateColumns : jsstring;
  btnSplitView_active : bool
}.

Definition initial_page : Page :=
  {| page_state := initial; container_display := ContainerUnset;
     container_gridTemplateColumns := []; btnSplitView_active := false |}.

(** A statement of the tab manager, run on the page: the outcome and the
    page it leaves. *)
Definition on_state (m : M unit) (p : Page) : option Error * Page :=
  let with_state s :=
    {| page_state := s; container_display := container_display p;
       container_gridTemplateColumns := container_gridTemplateColumns p;
       btnSplitView_active := btnSplitView_active p |} in
  match m (page_state p) with
  | Ok _ s => (None, with_state s)
  | Thrown e s => (Some e, with_state s)
  end.

(** The [click] listener of the split-view button. *)
Definition toggleSplitView (p : Page) : option Error * Page :=
  let s := set_isSplitView (negb (isSplitView (page_state p))) (page_state p) in
  let active := isSplitView s in
  if isSplitView s && bool_decide (2 <= length (tabs s))%nat then
    (* Enable split view - show 2 tabs side by side *)
    match tabs s with
    | firstTab :: secondTab :: _ =>
      let hidden := viewEl_set_display DisplayNone <$> viewsContainer s in
      let show i views :=
        match list_find (fun w => viewEl_id w = i) views with
        | Some (k, _) => alter (viewEl_set_display DisplayFlex) k views
        | None => views
        end in
      let views :=
        show (js "view-" ++ id secondTab) (show (js "view-" ++ id firstTab) hidden) in
      (None,
       {| page_state :=
            set_splitTabId (Some (id secondTab)) (set_viewsContainer views s);
          container_display := ContainerGrid;
          container_gridTemplateColumns := js "1fr 1fr";
          btnSplitView_active := active |})
    | _ =>
      (Some TypeError,
       {| page_state := s; container_display := ContainerGrid;
          container_gridTemplateColumns := js "1fr 1fr";
          btnSplitView_active := active |})
    end
  else
    (* Disable split view *)
    let s := set_splitTabId None s in
    on_state (switchTabTo (activeTabId s))
      {| page_state := s; container_display := ContainerBlock;
         container_gridTemplateColumns := [];
         btnSplitView_active := active |}.

(** What the user and the webviews can do to the page. *)
Inductive Action :=
  | ClickNewTab (now : N)
  | ClickTab (tabId : jsstring)
  | ClickTabClose (tabId : jsstring)
  | ClickBack
  | ClickForward
  | ClickReload
  | ClickSplitView
  | TypeUrl (text : jsstring)
  | PressKey (key : jsstring)
  | ViewEmits (now : N) (tabId : jsstring) (e : ViewEvent)
  | ViewMoves (i : nat) (u : jsstring) (back forward : bool).

(** The listener behind each action; an uncaught error ends the listener
    and leaves the page as it is at that point. *)
Definition perform (a : Action) (p : Page) : option Error * Page :=
  match a with
  | ClickNewTab now =>
    on_state (createTab now default_url default_activate ;; ret tt) p
  | ClickTab tabId => on_state (switchTab tabId) p
  | ClickTabClose tabId => on_state (closeTab tabId) p
  | ClickBack => on_state goBack p
  | ClickForward => on_state goForward p
  | ClickReload => on_state reload p
  | ClickSplitView => toggleSplitView p
  | TypeUrl text => on_state (modify (focus_and_type text)) p
  | PressKey key => on_state (urlInput_keydown key) p
  | ViewEmits now tabId e => on_state (dispatch now tabId e) p
  | ViewMoves i u back forward =>
    on_state (modify (view_reports i u back forward)) p
  end.

(** A tab button is there to be clicked only while it is in the page. *)
Definition enabled (a : Action) (p : Page) : Prop :=
  match a with
  | ClickTab tabId | ClickTabClose tabId =>
    is_Some (getTabElById (js "btn-" ++ tabId) (page_state p))
  | _ => True
  end.

(** The pages reached from the first tab, opened on [DOMContentLoaded]. *)
Inductive reachable : Page -> Prop :=
  | reachable_start (now : N) :
      reachable (perform (ClickNewTab now) initial_page).2
  | reachable_step (a : Action) (p : Page) :
      reachable p -> enabled a p -> reachable (perform a p).2.

(** Two states with the same tab records, active id and element ids. *)
Definition same_shape (s s' : State) : Prop :=
  tabs s' = tabs s /\ activeTabId s' = activeTabId s /\
  tabEl_id <$> tabBar s' = tabEl_id <$> tabBar s /\
  viewEl_id <$> viewsContainer s' = viewEl_id <$> viewsContainer s.

(** The session invariant: every tab has its button and its webview, there
    is at least one tab, and the active id is the id of a tab. *)
Definition consistent (s : State) : Prop :=
  paired s /\ tabs s <> [] /\
  exists tabId, activeTabId s = Some tabId /\ live tabId s.

End MultiTab.

(** ** The main process: request filter and screenshots *)

Module MainProcess.

(** What the [onBeforeRequest] listener answers: [callback({})] or
    [callback({ redirectURL })]. *)
Inductive Response :=
  | Continue
  | Redirect (redirectURL : jsstring).

Definition trackers : list jsstring :=
  [js "utm_source"; js "utm_medium"; js "utm_campaign"; js "fbclid"; js "gclid"].

(** [URLSearchParams]: a list of name-value pairs; [has] looks for a pair
    with the name, [delete] removes every pair with the name. *)
Definition has (params : list (jsstring * jsstring)) (name : jsstring) : bool :=
  bool_decide (Exists (fun p => p.1 = name) params).

Definition delete_all (params : list (jsstring * jsstring)) (name : jsstring)
    : list (jsstring * jsstring) :=
  filter (fun p => p.1 <> name) params.

(** The [forEach] over the trackers: the parameters left and the flag
    [changed]. *)
Definition stripTrackers (params : list (jsstring * jsstring))
    : list (jsstring * jsstring) * bool :=
  foldl (fun acc t =>
           if has acc.1 t then (delete_all acc.1 t, true) else acc)
        (params, false) trackers.

Section Network.

(** The platform's [URL] class, reduced to its search parameters and the
    rest: [parseURL] is [new URL(url)] ([None] when it throws), and
    [URL_toString] serialises a URL with the given parameters. *)
Variable Base : Type.
Variable parseURL : jsstring -> option (Base * list (jsstring * jsstring)).
Variable URL_toString : Base * list (jsstring * jsstring) -> jsstring.

Definition onBeforeRequest (url : jsstring) : Response :=
  (* Auto-upgrade HTTP to HTTPS *)
  if startsWith url (js "http://")
     && negb (startsWith url (js "http://localhost"))
     && negb (startsWith url (js "http://127.0.0.1"))
  then Redirect (replace url (js "http://") (js "https://"))
  else
    (* Strip Tracking Parameters *)
    match parseURL url with
    | Some (base, params) =>
      let '(params', changed) := stripTrackers params in
      if changed then Redirect (URL_toString (base, params')) else Continue
    | None => Continue
    end.

End Network.

(** [toISOString().replace(/[:.]/g, '-')] *)
Definition timestamp (iso : jsstring) : jsstring :=
  (fun c => if (c =? 0x3A)%N || (c =? 0x2E)%N then 0x2D%N else c) <$> iso.

Definition screenshotFileName (iso : jsstring) : jsstring :=
  js "Zy-Screenshot-" ++ timestamp iso ++ js ".png".

(** The result of the [save-screenshot] handler: [{ success: true, path }]
    or [{ success: false, error }]. *)
Inductive SaveResult :=
  | Saved (path : jsstring)
  | Failed (error : jsstring).

(** The handler, given what [app.getPath('downloads')] returns or throws,
    the clock's ISO string, [path.join] and the outcome of
    [fs.writeFileSync] ([Some message] when it throws). *)
Definition saveScreenshot (downloadsPath : jsstring + jsstring) (iso : jsstring)
    (join : jsstring -> jsstring -> jsstring)
    (writeFileSync : jsstring -> option jsstring) : SaveResult :=
  match downloadsPath with
  | inl downloads =>
    let filePath := join downloads (screenshotFileName iso) in
    match writeFileSync filePath with
    | None => Saved filePath
    | Some message => Failed message
    end
  | inr message => Failed message
  end.

End MainProcess.

(** ** The settings window *)

Module Settings.

Local Open Scope string_scope.

(** The values a settings object can hold: strings, booleans, [null], and
    any other value as far as its truthiness goes. *)
Inductive Value :=
  | VString (s : jsstring)
  | VBool (b : bool)
  | VNull
  | VOther (truthy : bool).

(** Truthiness of a property read; a missing property reads [undefined]. *)
Definition truthyValue (v : option Value) : bool :=
  match v with
  | Some (VString s) => truthy s
  | Some (VBool b) => b
  | Some VNull => false
  | Some (VOther b) => b
  | None => false
  end.

Definition defaultSettings : gmap string Value :=
  list_to_map
    [("theme", VString (js "dark"));
     ("showHomeButton", VBool true);
     ("searchEngine", VString (js "google"));
     ("clearOnExit", VBool false);
     ("blockThirdPartyCookies", VBool true);
     ("doNotTrack", VBool true);
     ("location", VString []);
     ("askDownload", VBool false);
     ("hardwareAcceleration", VBool true)].

Section Load.

(** [JSON.parse], reduced to the own enumerable properties of the value it
    returns, which is what the object spread copies; [None] when it
    throws. *)
Variable JSON_parse : jsstring -> option (gmap string Value).

(** [loadSettings], given what [localStorage.getItem('zy-settings')] and
    [getDefaultDownloadPath()] return and the current settings. *)
Definition loadSettings (saved : option jsstring) (defaultPath : jsstring)
    (currentSettings : gmap string Value) : gmap string Value :=
  let currentSettings :=
    match saved with
    | Some text =>
      if truthy text then
        match JSON_parse text with
        | Some parsed => parsed ∪ defaultSettings
        | None => currentSettings
        end
      else currentSettings
    | None => currentSettings
    end in
  (* Load dynamic system values *)
  if negb (truthyValue (currentSettings !! "location"))
  then <["location" := VString defaultPath]> currentSettings
  else currentSettings.

End Load.

End Settings.

Import MultiTab.

(** * Properties *)

(** ** JavaScript strings *)

Section Strings.

Lemma trimStart_blank (s : jsstring) :
  forallb isWhiteSpace s = true -> trimStart s = [].
Proof.
  induction s as [|c s IH]; simpl; [done|].
  intros [Hc Hs]%andb_true_iff. rewrite Hc. auto.
Qed.

Lemma trim_blank (s : jsstring) : forallb isWhiteSpace s = true -> trim s = [].
Proof. intros H. unfold trim. by rewrite trimStart_blank. Qed.

(** [encode] fails exactly on the strings that are not well-formed UTF-16. *)
Lemma encode_wellFormed (s : jsstring) :
  isWellFormed s = true <-> is_Some (encode s).
Proof.
  cut (forall n (s : jsstring), (length s <= n)%nat ->
         (isWellFormed s = true <-> is_Some (encode s))).
  { intros H. by apply (H (length s)). }
  clear s. induction n as [|n IH]; intros [|c rest] Hlen; simpl in *;
    try (split; eauto; done); try lia.
  destruct (isUriUnescaped c) eqn:Hu.
  - rewrite fmap_is_Some, <- IH by lia.
    assert (isTrailingSurrogate c = false /\ isLeadingSurrogate c = false) as [-> ->]; [|done].
    unfold isUriUnescaped, isAlpha, isDigit, isUriMark, isTrailingSurrogate,
      isLeadingSurrogate in *.
    rewrite !orb_true_iff, !andb_true_iff, !N.leb_le, !N.eqb_eq in Hu.
    rewrite !andb_false_iff, !N.leb_gt. lia.
  - destruct (isTrailingSurrogate c); [split; [done|by intros [? ?]]|].
    destruct (isLeadingSurrogate c).
    + destruct rest as [|d rest']; [split; [done|by intros [? ?]]|].
      simpl in *. destruct (isTrailingSurrogate d); simpl.
      * rewrite fmap_is_Some. apply IH. lia.
      * split; [done|by intros [? ?]].
    + rewrite fmap_is_Some. apply IH. lia.
Qed.

Lemma encodeURIComponent_wellFormed (s : jsstring) :
  isWellFormed s = true -> exists q, encodeURIComponent s = Normal q.
Proof.
  intros [q Hq]%encode_wellFormed. exists q. unfold encodeURIComponent.
  by rewrite Hq.
Qed.

Lemma encodeURIComponent_illFormed (s : jsstring) :
  isWellFormed s = false -> encodeURIComponent s = Abrupt URIError.
Proof.
  intros H. unfold encodeURIComponent.
  destruct (encode s) eqn:He; [|done].
  assert (isWellFormed s = true) by (apply encode_wellFormed; eauto).
  congruence.
Qed.

Lemma js_inj (a b : string) : js a = js b -> a = b.
Proof.
  revert b. induction a as [|x a IH]; intros [|y b]; simpl; try done.
  intros [= Hxy Hab]. f_equal; [|by apply IH].
  by rewrite <- (ascii_N_embedding x), <- (ascii_N_embedding y), Hxy.
Qed.

(** Distinct numbers print as distinct strings. *)
Lemma numberToString_inj (m n : N) : numberToString m = numberToString n -> m = n.
Proof. intros H%js_inj. by apply (inj pretty). Qed.

End Strings.

(** ** Address formatter *)

Section Formatter.

Lemma formatUrl_empty : formatUrl [] = Normal (js "home.html").
Proof. reflexivity. Qed.

(** Blank but non-empty input passes the emptiness test, which the multi-tab
    formatter makes before trimming, and ends up as an empty search. *)
Lemma formatUrl_blank (input : jsstring) :
  input <> [] -> forallb isWhiteSpace input = true ->
  formatUrl input = Normal (js "https://www.google.com/search?q=").
Proof.
  intros Hne Hws. unfold formatUrl.
  destruct input as [|c input]; [done|]. simpl truthy. cbn [negb].
  by rewrite trim_blank.
Qed.

(** X5.  The single-view formatter trims first: every blank input gives the
    address the view was last pointed at, or the default when there is none. *)
Lemma SingleView_formatUrl_blank P (input : jsstring) (st : SingleView.State) :
  forallb isWhiteSpace input = true ->
  SingleView.formatUrl P input st =
    Normal (or_else (SingleView.src (SingleView.webview st))
                    (js "https://www.google.com")).
Proof. intros Hws. unfold SingleView.formatUrl. by rewrite trim_blank. Qed.

(** What the single-view formatter accepts as a URL it returns trimmed. *)
Lemma SingleView_formatUrl_valid P (input : jsstring) (st : SingleView.State) :
  trim input <> [] -> SingleView.isValidUrl P (trim input) = true ->
  SingleView.formatUrl P input st = Normal (trim input).
Proof.
  intros Hne Hv. unfold SingleView.formatUrl.
  destruct (trim input) as [|c u] eqn:Ht; [done|]. simpl truthy. cbn [negb].
  by rewrite Hv.
Qed.

(** On well-formed UTF-16 the multi-tab formatter always returns. *)
Lemma formatUrl_returns (input : jsstring) :
  isWellFormed (trim input) = true -> exists u, formatUrl input = Normal u.
Proof.
  intros [q Hq]%encodeURIComponent_wellFormed. unfold formatUrl.
  destruct (negb (truthy input)); [eauto|]. cbv zeta. rewrite Hq.
  destruct (_ || _); [eauto|]. destruct (negb _); eauto.
Qed.

(** Input with a space or without a dot becomes a search for the trimmed,
    encoded input. *)
Lemma formatUrl_search (input q : jsstring) :
  input <> [] ->
  includes (trim input) (js " ") || negb (includes (trim input) (js ".")) = true ->
  encode (trim input) = Some q ->
  formatUrl input = Normal (js "https://www.google.com/search?q=" ++ q).
Proof.
  intros Hne Hs Hq. unfold formatUrl, encodeURIComponent.
  destruct input as [|c input]; [done|]. simpl truthy. cbn [negb]. cbv zeta.
  by rewrite Hs, Hq.
Qed.

(** A trimmed input with a dot, no space and an http(s) scheme is returned
    as it is. *)
Lemma formatUrl_unchanged (input : jsstring) :
  trim input = input ->
  includes input (js " ") = false -> includes input (js ".") = true ->
  test_http_scheme input = true ->
  formatUrl input = Normal input.
Proof.
  intros Ht Hsp Hdot Hscheme. unfold formatUrl.
  destruct input as [|c input]; [done|]. simpl truthy. cbn [negb]. cbv zeta.
  by rewrite Ht, Hsp, Hdot, Hscheme.
Qed.

Example formatUrl_bare_domain :
  formatUrl (js "example.com") = Normal (js "https://example.com").
Proof. reflexivity. Qed.

Example formatUrl_query :
  formatUrl (js "hello world") =
    Normal (js "https://www.google.com/search?q=hello%20world").
Proof. reflexivity. Qed.

Example formatUrl_absolute :
  formatUrl (js "https://a.b") = Normal (js "https://a.b").
Proof. reflexivity. Qed.

(** With a lone surrogate the single-view formatter throws as well, once the
    URL constructor has rejected the input. *)
Lemma SingleView_formatUrl_lone_surrogate P (st : SingleView.State) :
  P [0xD800%N] = None ->
  SingleView.formatUrl P [0xD800%N] st = Abrupt URIError.
Proof.
  intros HP. unfold SingleView.formatUrl, SingleView.isValidUrl.
  change (trim [0xD800%N]) with [0xD800%N]. by rewrite HP.
Qed.

(** C6 (multi-tab formatter, blank input).  The empty string is formatted to
    the home address [home.html], but an input of three spaces is not: it is
    formatted to a search with an empty query. *)
Theorem formatUrl_whitespace_only :
  formatUrl (js "") = Normal (js "home.html") /\
  formatUrl (js "   ") = Normal (js "https://www.google.com/search?q=") /\
  formatUrl (js "   ") <> Normal (js "home.html").
Proof. split; [reflexivity|]. split; [reflexivity|]. discriminate. Qed.

(** C7 (multi-tab formatter, absolute URL without a dot).  The input
    [https://localhost] is not returned unchanged: it is turned into a search
    for the percent-encoded input. *)
Theorem formatUrl_dotless_https :
  formatUrl (js "https://localhost") =
    Normal (js "https://www.google.com/search?q=https%3A%2F%2Flocalhost") /\
  formatUrl (js "https://localhost") <> Normal (js "https://localhost").
Proof. split; [reflexivity|discriminate]. Qed.

(** C8 (formatter on malformed input).  On the one-unit string holding the
    lone surrogate U+D800 the formatter does not return: the [URIError] of
    [encodeURIComponent] propagates. *)
Theorem formatUrl_lone_surrogate_throws :
  formatUrl [0xD800%N] = Abrupt URIError.
Proof. reflexivity. Qed.

End Formatter.

(** ** Tab manager *)

Section Lookup.

Context {A : Type} (key : A -> jsstring).

(** Looking an element up by id is not affected by updates that keep ids. *)
Lemma find_fmap_key (f : A -> A) (l : list A) (x : jsstring) :
  (forall a, key (f a) = key a) ->
  list_find (fun a => key a = x) (f <$> l) =
    prod_map (fun i => i) f <$> list_find (fun a => key a = x) l.
Proof.
  intros Hf. induction l as [|a l IH]; [done|]. csimpl.
  rewrite Hf. case_decide; [done|].
  rewrite IH. by destruct (list_find _ l) as [[??]|].
Qed.

Lemma find_keys (l : list A) (x : jsstring) :
  list_find (fun k => k = x) (key <$> l) =
    prod_map (fun i => i) key <$> list_find (fun a => key a = x) l.
Proof.
  induction l as [|a l IH]; [done|]. csimpl.
  case_decide; [done|].
  rewrite IH. by destruct (list_find _ l) as [[??]|].
Qed.

Lemma find_is_Some_keys (l : list A) (x : jsstring) :
  is_Some (list_find (fun a => key a = x) l) <-> x ∈ key <$> l.
Proof.
  split.
  - intros [[i a] (Hi & <- & _)%list_find_Some].
    apply list_elem_of_fmap. exists a. split; [done|].
    by eapply list_elem_of_lookup_2.
  - intros (a & -> & Ha)%list_elem_of_fmap.
    by eapply (list_find_elem_of (fun b => key b = key a)).
Qed.

Lemma find_prefix (p : jsstring) (l : list A) (x : jsstring) :
  list_find (fun a => p ++ key a = p ++ x) l = list_find (fun a => key a = x) l.
Proof.
  induction l as [|a l IH]; [done|]. cbn.
  rewrite IH. repeat case_decide; try done.
  - by simplify_list_eq.
  - by subst.
Qed.

End Lookup.

(** Two lists with related ids find their first match at the same place. *)
Lemma find_related {A B} (ka : A -> jsstring) (kb : B -> jsstring)
    (p : jsstring) (la : list A) (lb : list B) (x : jsstring) :
  ka <$> la = (fun b => p ++ kb b) <$> lb ->
  fst <$> list_find (fun a => ka a = p ++ x) la =
    fst <$> list_find (fun b => kb b = x) lb.
Proof.
  intros Heq.
  pose proof (find_keys ka la (p ++ x)) as Ha.
  pose proof (find_keys (fun b => p ++ kb b) lb (p ++ x)) as Hb.
  rewrite Heq in Ha. pose proof (eq_trans (eq_sym Ha) Hb) as Hab.
  cbn beta in Hab. rewrite (find_prefix kb) in Hab. clear Ha Hb.
  destruct (list_find _ la) as [[??]|], (list_find _ lb) as [[??]|];
    by simplify_eq/=.
Qed.

Section TabManager.

Ltac run :=
  unfold switchTab, closeTab, createTab, updateLoading, updateUrl, updateTitle,
    goBack, goForward, reload, callView, updateNavigationButtons,
    getActiveWebview, bind, modify, get, ret, throw,
    getTabElById, getViewElById in *; cbn in *.

Lemma tabEl_set_active_id b e : tabEl_id (tabEl_set_active b e) = tabEl_id e.
Proof. done. Qed.

Lemma viewEl_set_display_id d v : viewEl_id (viewEl_set_display d v) = viewEl_id v.
Proof. done. Qed.

(** [switchTab] on an id without a tab button: the active id is already
    overwritten and every highlight removed when the [TypeError] is thrown. *)
Lemma switchTab_throws (tabId : jsstring) (st : State) :
  getTabElById (js "btn-" ++ tabId) st = None ->
  switchTab tabId st =
    Thrown TypeError
      (set_tabBar (tabEl_set_active false <$> tabBar st)
         (set_activeTabId (Some tabId) st)).
Proof.
  intros Hnone. run.
  rewrite (find_fmap_key tabEl_id) by done. by rewrite Hnone.
Qed.

(** [switchTab] on an id with a tab button returns. *)
Lemma switchTab_ok (tabId : jsstring) (st : State) :
  is_Some (getTabElById (js "btn-" ++ tabId) st) ->
  exists st', switchTab tabId st = Ok tt st'.
Proof.
  intros [[i e] He]. run.
  rewrite (find_fmap_key tabEl_id) by done. rewrite He. simpl.
  repeat case_match; eauto.
Qed.

(** What [switchTab] leaves alone and what it sets, however it completes. *)
Lemma switchTab_frame (tabId : jsstring) (st : State) :
  let st' := final (switchTab tabId st) in
  tabs st' = tabs st /\ activeTabId st' = Some tabId /\
  tabEl_id <$> tabBar st' = tabEl_id <$> tabBar st /\
  viewEl_id <$> viewsContainer st' = viewEl_id <$> viewsContainer st /\
  isSplitView st' = isSplitView st /\ splitTabId st' = splitTabId st.
Proof.
  run.
  assert (forall (l : list TabEl) i b, tabEl_id <$> alter (tabEl_set_active b) i l = tabEl_id <$> l) as Ha.
  { intros l i b. rewrite (list_fmap_alter _ _ (fun x => x)); [by rewrite list_alter_id|].
    by apply Forall_true. }
  assert (forall (l : list ViewEl) i d, viewEl_id <$> alter (viewEl_set_display d) i l = viewEl_id <$> l) as Hv.
  { intros l i d. rewrite (list_fmap_alter _ _ (fun x => x)); [by rewrite list_alter_id|].
    by apply Forall_true. }
  assert (forall (l : list TabEl) b, tabEl_id <$> (tabEl_set_active b <$> l) = tabEl_id <$> l) as Hm.
  { intros l b. by rewrite <- list_fmap_compose. }
  assert (forall (l : list ViewEl) f, viewEl_id <$> ((fun v => viewEl_set_display (f v) v) <$> l) = viewEl_id <$> l) as Hw.
  { intros l f. by rewrite <- list_fmap_compose. }
  repeat (case_match; simplify_eq/=); rewrite ?Ha, ?Hv, ?Hm, ?Hw; done.
Qed.

(** *** createTab *)

Lemma createTab_unfold (now : N) (url : jsstring) (activate : bool) (st : State) :
  createTab now url activate st =
    if activate then
      match switchTab (js "tab-" ++ numberToString now) (created now url st) with
      | Ok _ st' => Ok (js "tab-" ++ numberToString now) st'
      | Thrown e st' => Thrown e st'
      end
    else Ok (js "tab-" ++ numberToString now) (created now url st).
Proof. unfold createTab, bind, modify, ret. by destruct activate. Qed.

Lemma created_has_button (now : N) (url : jsstring) (st : State) :
  is_Some (getTabElById (js "btn-" ++ js "tab-" ++ numberToString now)
             (created now url st)).
Proof.
  unfold getTabElById. apply (find_is_Some_keys tabEl_id). simpl.
  rewrite fmap_app. apply elem_of_app. right. simpl. apply list_elem_of_here.
Qed.

(** [createTab] always returns, and its result is determined by the clock
    reading alone. *)
Lemma createTab_ok (now : N) (url : jsstring) (activate : bool) (st : State) :
  exists st',
    createTab now url activate st = Ok (js "tab-" ++ numberToString now) st' /\
    tabs st' =
      tabs st ++ [{| id := js "tab-" ++ numberToString now; url := url;
                     title := js "New Tab"; isLoading := true |}].
Proof.
  rewrite createTab_unfold. destruct activate; [|by eexists].
  destruct (switchTab_ok _ _ (created_has_button now url st)) as [st' Hst'].
  pose proof (switchTab_frame (js "tab-" ++ numberToString now) (created now url st)) as (Ht & _).
  rewrite Hst' in *. by exists st'.
Qed.

Lemma initial_paired : paired initial.
Proof. by split. Qed.

Lemma createTab_paired (now : N) (url : jsstring) (activate : bool) (st : State) :
  paired st -> paired (final (createTab now url activate st)).
Proof.
  intros [Hb Hv]. rewrite createTab_unfold.
  assert (paired (created now url st)) as [Hb' Hv'].
  { split; cbn; rewrite !fmap_app; cbn; [by rewrite Hb|by rewrite Hv]. }
  destruct activate; [|done].
  pose proof (switchTab_frame (js "tab-" ++ numberToString now) (created now url st)) as (Ht & _ & Hbs & Hvs & _).
  destruct (switchTab _ _) as [? st'|e st']; cbn [final] in *;
    (split; [by rewrite Hbs, Ht|by rewrite Hvs, Ht]).
Qed.

(** The ids a run of [createTab] calls returns are the printed clock
    readings. *)
Lemma createTabs_ids (calls : list (N * jsstring * bool)) (st : State) :
  exists st',
    createTabs calls st =
      Ok ((fun c => js "tab-" ++ numberToString c.1.1) <$> calls) st'.
Proof.
  revert st. induction calls as [|[[now url] activate] calls IH]; intros st.
  - by exists st.
  - simpl. unfold bind at 1.
    destruct (createTab_ok now url activate st) as (st1 & -> & _).
    unfold bind at 1. destruct (IH st1) as [st2 ->]. by exists st2.
Qed.

(** X6.  Where the clock readings differ, so do the ids. *)
Lemma createTabs_distinct (calls : list (N * jsstring * bool)) (st : State) :
  NoDup ((fun c => c.1.1) <$> calls) ->
  exists ids st', createTabs calls st = Ok ids st' /\ NoDup ids.
Proof.
  intros Hnd. destruct (createTabs_ids calls st) as [st' Hst'].
  eexists _, st'. split; [done|].
  assert (((fun c : N * jsstring * bool => js "tab-" ++ numberToString c.1.1) <$> calls)
          = (fun n => js "tab-" ++ numberToString n) <$> ((fun c => c.1.1) <$> calls))
    as -> by (by rewrite <- list_fmap_compose).
  apply NoDup_fmap_2; [|done].
  intros m n H. apply numberToString_inj. by apply app_inv_head in H.
Qed.

(** C1 (ids of created tabs).  Two [createTab] calls that read the same
    [Date.now()] value return the same id, whatever the state and the
    arguments; the tab sequence then holds two tabs with one id. *)
Theorem createTab_same_clock_same_id
    (now : N) (url1 url2 : jsstring) (activate1 activate2 : bool) (st : State) :
  exists tabId st1 st2,
    createTab now url1 activate1 st = Ok tabId st1 /\
    createTab now url2 activate2 st1 = Ok tabId st2 /\
    ~ NoDup (id <$> tabs st2).
Proof.
  destruct (createTab_ok now url1 activate1 st) as (st1 & H1 & Ht1).
  destruct (createTab_ok now url2 activate2 st1) as (st2 & H2 & Ht2).
  exists (js "tab-" ++ numberToString now), st1, st2. split_and!; [done..|].
  rewrite Ht2, Ht1, <- app_assoc, fmap_app. cbn.
  intros (_ & _ & Hnd)%NoDup_app. apply NoDup_cons in Hnd as [Hin _].
  apply Hin. apply list_elem_of_here.
Qed.

(** *** closeTab *)

Lemma findIndex_found {A} (P : A -> Prop) `{forall x, Decision (P x)}
    (l : list A) (i : nat) (x : A) :
  list_find P l = Some (i, x) -> findIndex P l = Z.of_nat i /\ (i < length l)%nat.
Proof.
  intros Hf. unfold findIndex. rewrite Hf. split; [done|].
  apply list_find_Some in Hf as (Hi & _). by eapply lookup_lt_Some.
Qed.

Lemma splice1_found {A} (l : list A) (i : nat) :
  (i < length l)%nat -> splice1 (Z.of_nat i) l = delete i l.
Proof.
  intros Hi. unfold splice1.
  destruct (Z.ltb_spec (Z.of_nat i) 0); [lia|].
  rewrite Z.min_l by lia. by rewrite Nat2Z.id.
Qed.

(** With [findIndex] at -1, [splice] drops the last element. *)
Lemma splice1_not_found {A} (l : list A) :
  splice1 (-1) l = take (length l - 1) l.
Proof.
  unfold splice1. cbn [Z.ltb Z.compare].
  destruct l as [|x l] using rev_ind; [done|].
  rewrite length_app. cbn [length].
  replace (Z.to_nat (Z.max (Z.of_nat (length l + 1) + -1) 0)) with (length l) by lia.
  replace (length l + 1 - 1)%nat with (length l) by lia.
  rewrite take_app_length. clear.
  induction l as [|y l IH]; [done|].
  change (y :: delete (length l) (l ++ [x]) = y :: l). by rewrite IH.
Qed.

(** [splice(start, 1)] removes at most one element. *)
Lemma splice1_length {A} (start : Z) (l : list A) :
  (length l - 1 <= length (splice1 start l))%nat.
Proof.
  unfold splice1. rewrite delete_take_drop, length_app, length_take, length_drop.
  lia.
Qed.

Lemma index_nat {A} (l : list A) (i : nat) : index l (Z.of_nat i) = l !! i.
Proof.
  unfold index. destruct (Z.ltb_spec (Z.of_nat i) 0); [lia|]. by rewrite Nat2Z.id.
Qed.

(** X7.  Whatever it is called with, [closeTab] leaves at least one tab. *)
Lemma closeTab_never_empties (tabId : jsstring) (st : State) :
  tabs st <> [] -> tabs (final (closeTab tabId st)) <> [].
Proof.
  intros Hne. unfold closeTab, bind, get, modify, ret, throw.
  case_bool_decide as Hlen; [done|].
  assert (splice1 (findIndex (fun t => id t = tabId) (tabs st)) (tabs st) <> []) as Hs.
  { intros Hnil%(f_equal length).
    pose proof (splice1_length (findIndex (fun t => id t = tabId) (tabs st)) (tabs st)).
    cbn in Hnil. lia. }
  repeat case_match; simplify_eq;
    cbn [final tabs set_tabs set_tabBar set_viewsContainer]; try done.
  all: match goal with |- context [switchTab ?x ?s] =>
         pose proof (switchTab_frame x s) as (Ht & _) end.
  all: cbn [final tabs set_tabs set_tabBar set_viewsContainer] in Ht.
  all: by rewrite Ht.
Qed.

Lemma paired_delete (i : nat) (st : State) :
  paired st ->
  paired (set_viewsContainer (delete i (viewsContainer st))
            (set_tabBar (delete i (tabBar st))
               (set_tabs (delete i (tabs st)) st))).
Proof.
  intros [Hb Hv]. split; cbn; rewrite !list_fmap_delete; by f_equal.
Qed.

Lemma paired_button (st : State) (t : TabData) :
  paired st -> t ∈ tabs st -> is_Some (getTabElById (js "btn-" ++ id t) st).
Proof.
  intros [Hb _] Ht. unfold getTabElById.
  apply (find_is_Some_keys tabEl_id). rewrite Hb.
  apply list_elem_of_fmap. by exists t.
Qed.

Lemma paired_find (st : State) (tabId : jsstring) :
  paired st ->
  fst <$> getTabElById (js "btn-" ++ tabId) st =
    fst <$> list_find (fun t => id t = tabId) (tabs st) /\
  fst <$> getViewElById (js "view-" ++ tabId) st =
    fst <$> list_find (fun t => id t = tabId) (tabs st).
Proof.
  intros [Hb Hv]. split.
  - apply (find_related tabEl_id id (js "btn-")), Hb.
  - apply (find_related viewEl_id id (js "view-")), Hv.
Qed.

(** C3 (last tab).  With exactly one tab in the sequence, [closeTab] returns
    at once for any id and leaves the whole state, the tab included, as it
    was. *)
Theorem closeTab_last_tab_noop (st : State) (tabId : jsstring) :
  length (tabs st) = 1%nat -> closeTab tabId st = Ok tt st.
Proof.
  intros Hlen. unfold closeTab, bind, get, ret.
  rewrite bool_decide_true by lia. done.
Qed.

Lemma closeTab_last_tab_noop_witness :
  length (tabs one_tab) = 1%nat /\
  closeTab (js "tab-1") one_tab = Ok tt one_tab /\
  closeTab (js "tab-7") one_tab = Ok tt one_tab.
Proof.
  split; [reflexivity|].
  split; apply closeTab_last_tab_noop; reflexivity.
Defined.

(** C4 (neighbour selection).  In a session of at least two tabs where every
    tab has its button and webview, closing the active tab, found at index
    [i], returns normally, removes that tab and activates the tab now at
    index [i] (its former right neighbour) or, when the closed tab was the
    last one, the tab at index [i - 1]. *)
Theorem closeTab_active_selects_neighbor
    (st : State) (tabId : jsstring) (i : nat) (t : TabData) :
  paired st ->
  (2 <= length (tabs st))%nat ->
  activeTabId st = Some tabId ->
  list_find (fun t => id t = tabId) (tabs st) = Some (i, t) ->
  exists st' next,
    closeTab tabId st = Ok tt st' /\
    tabs st' = delete i (tabs st) /\
    activeTabId st' = Some (id next) /\
    paired st' /\
    ((tabs st' !! i = Some next /\ tabs st !! (i + 1)%nat = Some next) \/
     (tabs st' !! i = None /\ (i + 1)%nat = length (tabs st) /\
      tabs st' !! (i - 1)%nat = Some next /\
      tabs st !! (i - 1)%nat = Some next)).
Proof.
  intros Hp Hlen Hact Hfind.
  destruct (findIndex_found _ _ _ _ Hfind) as [Hidx Hi].
  destruct (paired_find st tabId Hp) as [Hb Hv]. rewrite Hfind in Hb, Hv.
  destruct (getTabElById _ st) as [[ib e]|] eqn:Hbtn; [|done].
  destruct (getViewElById _ st) as [[iv v]|] eqn:Hview; [|done].
  cbn in Hb, Hv. simplify_eq.
  set (st3 := set_viewsContainer (delete i (viewsContainer st))
                (set_tabBar (delete i (tabBar st))
                   (set_tabs (delete i (tabs st)) st))).
  assert (paired st3) as Hp3 by by apply paired_delete.
  assert (exists next,
    match index (tabs st3) (Z.of_nat i) with
    | Some t => Some t
    | None => index (tabs st3) (Z.of_nat i - 1)
    end = Some next /\
    next ∈ tabs st3 /\
    ((tabs st3 !! i = Some next /\ tabs st !! (i + 1)%nat = Some next) \/
     (tabs st3 !! i = None /\ (i + 1)%nat = length (tabs st) /\
      tabs st3 !! (i - 1)%nat = Some next /\
      tabs st !! (i - 1)%nat = Some next))) as (next & Hnext & Hin & Hwhere).
  { rewrite index_nat. cbn [st3 tabs set_viewsContainer set_tabBar set_tabs].
    destruct (decide (i + 1 < length (tabs st))%nat) as [Hlt|Hge].
    - destruct (lookup_lt_is_Some_2 (tabs st) (i + 1)) as [next Hn]; [done|].
      assert (delete i (tabs st) !! i = Some next) as Hd.
      { rewrite list_lookup_delete_ge by done. by rewrite <- Hn, Nat.add_1_r. }
      exists next. rewrite Hd. split_and!; [done| |by left].
      by eapply list_elem_of_lookup_2.
    - assert (i + 1 = length (tabs st))%nat as Hlast by lia.
      assert (delete i (tabs st) !! i = None) as Hd.
      { apply lookup_ge_None. rewrite length_delete by (by apply lookup_lt_is_Some).
        lia. }
      destruct (lookup_lt_is_Some_2 (tabs st) (i - 1)) as [next Hn]; [lia|].
      assert (delete i (tabs st) !! (i - 1)%nat = Some next) as Hd'.
      { rewrite list_lookup_delete_lt by lia. done. }
      exists next. rewrite Hd.
      replace (Z.of_nat i - 1)%Z with (Z.of_nat (i - 1)) by lia.
      rewrite index_nat. split_and!; [done| |right; done].
      by eapply list_elem_of_lookup_2. }
  destruct (switchTab_ok (id next) st3 (paired_button _ _ Hp3 Hin)) as [st' Hst'].
  pose proof (switchTab_frame (id next) st3) as (Ht & Ha & Hbs & Hvs & _).
  rewrite Hst' in Ht, Ha, Hbs, Hvs. cbn [final] in Ht, Ha, Hbs, Hvs.
  exists st', next.
  split_and!.
  - unfold closeTab, bind, get, modify, ret, throw.
    rewrite bool_decide_false by lia. rewrite Hidx, splice1_found by done.
    unfold getTabElById, getViewElById in *.
    cbn [tabBar set_tabs]. rewrite Hbtn.
    cbn [viewsContainer set_tabs set_tabBar]. rewrite Hview.
    cbn [activeTabId set_viewsContainer set_tabBar set_tabs].
    unfold strict_eq. rewrite bool_decide_true by done.
    cbn [tabBar viewsContainer set_tabs set_tabBar]. fold st3.
    by rewrite Hnext, Hst'.
  - by rewrite Ht.
  - done.
  - destruct Hp3 as [Hb3 Hv3]. split; [by rewrite Hbs, Ht|by rewrite Hvs, Ht].
  - by rewrite Ht.
Qed.

(** The two cases of the specification: tabs [A, B, C] with B active and B
    closed, resp. with C active and C closed. *)
Lemma closeTab_active_selects_neighbor_witness :
  (exists stB,
     switchTab (js "tab-2") three_tabs = Ok tt stB /\
     id <$> tabs stB = [js "tab-1"; js "tab-2"; js "tab-3"] /\
     exists st' next,
       closeTab (js "tab-2") stB = Ok tt st' /\
       tabs st' = delete 1%nat (tabs stB) /\
       activeTabId st' = Some (id next) /\
       paired st' /\
       ((tabs st' !! 1%nat = Some next /\ tabs stB !! 2%nat = Some next) \/
        (tabs st' !! 1%nat = None /\ 2%nat = length (tabs stB) /\
         tabs st' !! 0%nat = Some next /\ tabs stB !! 0%nat = Some next))) /\
  (activeTabId three_tabs = Some (js "tab-3") /\
   exists st' next,
     closeTab (js "tab-3") three_tabs = Ok tt st' /\
     tabs st' = delete 2%nat (tabs three_tabs) /\
     activeTabId st' = Some (id next) /\
     paired st' /\
     ((tabs st' !! 2%nat = Some next /\ tabs three_tabs !! 3%nat = Some next) \/
      (tabs st' !! 2%nat = None /\ 3%nat = length (tabs three_tabs) /\
       tabs st' !! 1%nat = Some next /\ tabs three_tabs !! 1%nat = Some next))).
Proof.
  split.
  - eexists. split; [vm_compute; reflexivity|]. split; [vm_compute; reflexivity|].
    eapply (closeTab_active_selects_neighbor _ (js "tab-2") 1%nat);
      [split; vm_compute; reflexivity | vm_compute; lia
      | vm_compute; reflexivity | vm_compute; reflexivity].
  - split; [vm_compute; reflexivity|].
    eapply (closeTab_active_selects_neighbor three_tabs (js "tab-3") 2%nat);
      [split; vm_compute; reflexivity | vm_compute; lia
      | vm_compute; reflexivity | vm_compute; reflexivity].
Defined.

(** The examples of the specification, evaluated. *)
Example closeTab_B_activates_C :
  activeTabId
    (final ((switchTab (js "tab-2") ;; closeTab (js "tab-2")) three_tabs))
  = Some (js "tab-3").
Proof. vm_compute. reflexivity. Qed.

Example closeTab_C_activates_B :
  activeTabId (final (closeTab (js "tab-3") three_tabs)) = Some (js "tab-2").
Proof. vm_compute. reflexivity. Qed.

(** *** Ids that reference no tab *)

Lemma not_live_find (tabId : jsstring) (st : State) :
  ~ live tabId st -> list_find (fun t => id t = tabId) (tabs st) = None.
Proof.
  intros Hnl. apply list_find_None, Forall_forall. intros t Ht Hid.
  apply Hnl. exists t. split; [by apply list_elem_of_In|done].
Qed.

(** In a session of two or more tabs, [closeTab] on an id of no tab drops
    the last tab from [state.tabs], button and webview staying in the page,
    and then throws.  The id is of the form [createTab] issues, so that no
    element of the static page answers the lookups. *)
Lemma closeTab_dangling (tabId : jsstring) (st : State) :
  isTabId tabId = true ->
  paired st -> (2 <= length (tabs st))%nat -> ~ live tabId st ->
  closeTab tabId st =
    Thrown TypeError (set_tabs (take (length (tabs st) - 1) (tabs st)) st).
Proof.
  intros _ Hp Hlen Hnl%not_live_find.
  destruct (paired_find st tabId Hp) as [Hb _]. rewrite Hnl in Hb.
  destruct (getTabElById _ st) as [[??]|] eqn:Hbtn; [done|].
  unfold closeTab, bind, get, modify, ret, throw, findIndex.
  rewrite bool_decide_false by lia. rewrite Hnl, splice1_not_found.
  unfold getTabElById in *. cbn [tabBar set_tabs]. by rewrite Hbtn.
Qed.

(** [switchTab] on an id of no tab, of the form [createTab] issues, makes
    that id the active one, clears every highlight, and then throws. *)
Lemma switchTab_dangling (tabId : jsstring) (st : State) :
  isTabId tabId = true ->
  paired st -> ~ live tabId st ->
  switchTab tabId st =
    Thrown TypeError
      (set_tabBar (tabEl_set_active false <$> tabBar st)
         (set_activeTabId (Some tabId) st)).
Proof.
  intros _ Hp Hnl%not_live_find. apply switchTab_throws.
  destruct (paired_find st tabId Hp) as [Hb _]. rewrite Hnl in Hb.
  by destruct (getTabElById _ st) as [[??]|].
Qed.

(** C2 (ids that reference no tab).  In the session of tabs [tab-1] and
    [tab-2], with [tab-2] active, the id [tab-9] references no tab;
    [closeTab] on it throws a [TypeError] after having dropped [tab-2] from
    the tab sequence, and [switchTab] on it throws a [TypeError] after having
    made [tab-9] the active id and removed the highlight from every tab
    button. *)
Theorem dangling_tabId_not_absorbed :
  id <$> tabs two_tabs = [js "tab-1"; js "tab-2"] /\
  activeTabId two_tabs = Some (js "tab-2") /\
  ~ live (js "tab-9") two_tabs /\
  (exists st',
     closeTab (js "tab-9") two_tabs = Thrown TypeError st' /\
     id <$> tabs st' = [js "tab-1"] /\
     tabEl_id <$> tabBar st' = [js "btn-tab-1"; js "btn-tab-2"]) /\
  (exists st',
     switchTab (js "tab-9") two_tabs = Thrown TypeError st' /\
     activeTabId st' = Some (js "tab-9") /\
     tabEl_active <$> tabBar st' = [false; false]).
Proof.
  split; [vm_compute; reflexivity|]. split; [vm_compute; reflexivity|].
  split.
  { intros (t & Hin & Hid). vm_compute in Hin.
    destruct Hin as [<-|[<-|[]]]; vm_compute in Hid; discriminate. }
  split; eexists; (split; [vm_compute; reflexivity|]);
    split; vm_compute; reflexivity.
Qed.

(** *** Event handlers *)

Lemma updateNavigationButtons_frame (st : State) :
  exists st',
    updateNavigationButtons st = Ok tt st' /\
    tabs st' = tabs st /\ activeTabId st' = activeTabId st /\
    tabBar st' = tabBar st /\ viewsContainer st' = viewsContainer st /\
    urlInput_value st' = urlInput_value st /\
    urlInput_focused st' = urlInput_focused st /\
    loadingBar_loading st' = loadingBar_loading st /\
    loadingBar_complete st' = loadingBar_complete st.
Proof. run. repeat case_match; eexists; split_and!; done. Qed.

Lemma updateLoading_inactive (tabId : jsstring) (b : bool) (st : State) :
  activeTabId st <> Some tabId -> updateLoading tabId b st = Ok tt st.
Proof.
  intros Hne. unfold updateLoading, bind, get, ret, strict_eq.
  by rewrite bool_decide_false.
Qed.

Lemma updateUrl_inactive (tabId u : jsstring) (st : State) :
  activeTabId st <> Some tabId -> updateUrl tabId u st = Ok tt st.
Proof.
  intros Hne. unfold updateUrl, bind, get, ret, strict_eq.
  by rewrite bool_decide_false.
Qed.

(** What the load and navigation listeners write.  For the active tab the
    load events switch the loading indicator on and off and the navigation
    events write the new address into the address bar; for any other tab
    they change nothing at all.  [state.tabs] is the same before and after. *)
Lemma view_events_leave_tab_records (st : State) (now : N) (tabId : jsstring) :
  (forall (e : ViewEvent) (b : bool),
     e = (if b then DidStartLoading else DidStopLoading) ->
     exists st',
       dispatch now tabId e st = Ok tt st' /\
       tabs st' = tabs st /\
       (activeTabId st = Some tabId ->
        loadingBar_loading st' = b /\ urlInput_value st' = urlInput_value st) /\
       (activeTabId st <> Some tabId -> st' = st)) /\
  (forall (e : ViewEvent) (u : jsstring),
     e = DidNavigate u \/ e = DidNavigateInPage u ->
     exists st',
       dispatch now tabId e st = Ok tt st' /\
       tabs st' = tabs st /\
       (activeTabId st = Some tabId ->
        urlInput_value st' = u /\ loadingBar_loading st' = loadingBar_loading st) /\
       (activeTabId st <> Some tabId -> st' = st)).
Proof.
  split.
  - intros e b ->.
    assert (dispatch now tabId (if b then DidStartLoading else DidStopLoading) st
            = updateLoading tabId b st) as -> by by destruct b.
    destruct (decide (activeTabId st = Some tabId)) as [Hact|Hne].
    + unfold updateLoading, bind, get, ret, modify, strict_eq.
      rewrite bool_decide_true by done.
      destruct b.
      * destruct (updateNavigationButtons_frame (set_loadingBar true false st))
          as (st' & -> & Ht & _ & _ & _ & Hu & _ & Hl & _).
        exists st'. split_and!; [done|done| |done]. by rewrite Hl, Hu.
      * destruct (updateNavigationButtons_frame
                    (set_timeouts (timeouts (set_loadingBar false true st)
                                     ++ [RemoveComplete 600])
                       (set_loadingBar false true st)))
          as (st' & -> & Ht & _ & _ & _ & Hu & _ & Hl & _).
        exists st'. split_and!; [done|done| |done]. by rewrite Hl, Hu.
    + exists st. rewrite updateLoading_inactive by done. done.
  - intros e u He.
    assert (dispatch now tabId e st = updateUrl tabId u st) as ->
      by by destruct He as [-> | ->].
    destruct (decide (activeTabId st = Some tabId)) as [Hact|Hne].
    + unfold updateUrl, bind, get, ret, modify, strict_eq.
      rewrite bool_decide_true by done.
      destruct (updateNavigationButtons_frame (set_urlInput_value u st))
        as (st' & -> & Ht & _ & _ & _ & Hu & _ & Hl & _).
      exists st'. split_and!; [done|done| |done]. by rewrite Hl, Hu.
    + exists st. rewrite updateUrl_inactive by done. done.
Qed.

(** The title listener writes the tab button and the document title. *)
Lemma updateTitle_tabs (tabId t : jsstring) (st : State) :
  exists st', updateTitle tabId t st = Ok tt st' /\ tabs st' = tabs st.
Proof.
  run. repeat case_match; simplify_eq; eexists; (split; [reflexivity|done]).
Qed.

(** Each of the six listeners of a webview returns; the new-window listener
    pushes one record, the others leave [state.tabs] as it is. *)
Lemma dispatch_tabs (now : N) (tabId : jsstring) (e : ViewEvent) (st : State) :
  exists st',
    dispatch now tabId e st = Ok tt st' /\
    tabs st' = tabs st ++ opened [(now, tabId, e)].
Proof.
  destruct (view_events_leave_tab_records st now tabId) as [Hload Hnav].
  destruct e as [| |t|u|u|u]; unfold opened; cbn [omap list_omap snd];
    rewrite ?app_nil_r.
  - destruct (Hload DidStartLoading true eq_refl) as (st' & ? & ? & _). eauto.
  - destruct (Hload DidStopLoading false eq_refl) as (st' & ? & ? & _). eauto.
  - apply updateTitle_tabs.
  - destruct (Hnav (DidNavigate u) u (or_introl eq_refl)) as (st' & ? & ? & _).
    eauto.
  - destruct (Hnav (DidNavigateInPage u) u (or_intror eq_refl))
      as (st' & ? & ? & _).
    eauto.
  - destruct (createTab_ok now u default_activate st) as (st' & Hc & Ht).
    exists st'. unfold dispatch, bind, ret. rewrite Hc. done.
Qed.

(** C5 (tab records and view events).  A tab is created on [url0]; then the
    webviews emit any run of events - load started, load finished, title
    updated, navigation, in-page navigation, new window - from this tab's
    view or from any other tab's, each listener bound with an id of the
    form [createTab] issues.  [createTab] and every listener return,
    and [state.tabs] is afterwards what it was before the tab was created,
    followed by the record exactly as [createTab] pushed it, with
    [isLoading = true] and [url] the creation address, followed by the
    records of the tabs the new-window events opened, as they were pushed.
    No listener writes a field of a record: after load-finished the record
    still says loading, and after a navigation it still holds the creation
    address. *)
Theorem tab_records_never_updated (now : N) (url0 : jsstring) (activate : bool)
    (events : list (N * jsstring * ViewEvent)) (st : State) :
  forallb (fun ev => isTabId ev.1.2) events = true ->
  exists st1 st2,
    createTab now url0 activate st = Ok (js "tab-" ++ numberToString now) st1 /\
    dispatchAll events st1 = Ok tt st2 /\
    tabs st2 =
      tabs st ++
      {| id := js "tab-" ++ numberToString now; url := url0;
         title := js "New Tab"; isLoading := true |} :: opened events.
Proof.
  intros _.
  destruct (createTab_ok now url0 activate st) as (st1 & Hc & Ht1).
  exists st1.
  assert (exists st2,
            dispatchAll events st1 = Ok tt st2 /\
            tabs st2 = tabs st1 ++ opened events) as (st2 & Hd & Ht2).
  { clear Hc Ht1. revert st1.
    induction events as [|[[n tabId] e] events IH]; intros st1.
    - exists st1. split; [done|]. unfold opened. cbn. by rewrite app_nil_r.
    - destruct (dispatch_tabs n tabId e st1) as (st' & He & Ht').
      destruct (IH st') as (st2 & Hd & Ht2).
      exists st2. split.
      + cbn [dispatchAll]. unfold bind at 1. by rewrite He.
      + rewrite Ht2, Ht', <- app_assoc. f_equal.
        unfold opened. cbn [omap list_omap]. by destruct e. }
  exists st2. split; [done|]. split; [done|].
  by rewrite Ht2, Ht1, <- app_assoc.
Qed.

(** *** The address bar on a tab switch *)

(** [switchTab] on a tab with button and webview writes the view's current
    address into the address bar; whether the bar has focus plays no part. *)
Lemma switchTab_sets_urlInput (tabId : jsstring) (st : State) (i : nat) (v : ViewEl) :
  is_Some (getTabElById (js "btn-" ++ tabId) st) ->
  getViewElById (js "view-" ++ tabId) st = Some (i, v) ->
  exists st',
    switchTab tabId st = Ok tt st' /\
    urlInput_value st' = getURL v /\
    urlInput_focused st' = urlInput_focused st.
Proof.
  intros [[ib e] He] Hv. run.
  rewrite (find_fmap_key tabEl_id) by done. rewrite He. cbn.
  rewrite (find_fmap_key viewEl_id) by done. rewrite Hv. cbn.
  rewrite (find_fmap_key viewEl_id) by done. rewrite Hv. cbn.
  repeat case_match; eexists; split_and!; done.
Qed.

(** C9 (address bar on a tab switch).  Two tabs are open, on
    [https://a.example/] and [https://b.example/]; the user has focused the
    address bar and typed [draft] without submitting.  [switchTab] to the
    first tab returns normally, leaves the focus where it is, and replaces
    the typed text by the first view's address. *)
Theorem switchTab_overwrites_focused_urlInput :
  let st := focus_and_type (js "draft") two_sites in
  urlInput_focused st = true /\
  urlInput_value st = js "draft" /\
  live (js "tab-1") st /\
  exists st',
    switchTab (js "tab-1") st = Ok tt st' /\
    urlInput_focused st' = true /\
    urlInput_value st' = js "https://a.example/" /\
    urlInput_value st' <> urlInput_value st.
Proof.
  cbv zeta. split; [reflexivity|]. split; [reflexivity|]. split.
  { eexists. split; [left; reflexivity|]. vm_compute. reflexivity. }
  eexists. split; [vm_compute; reflexivity|].
  split; [reflexivity|]. split; [vm_compute; reflexivity|].
  vm_compute. discriminate.
Qed.

(** The single-view script does guard the address bar. *)
Lemma SingleView_updateUrlBar_focused (url : jsstring) (st : SingleView.State) :
  SingleView.urlInput_focused st = true -> SingleView.updateUrlBar url st = st.
Proof. intros H. unfold SingleView.updateUrlBar. by rewrite H. Qed.

(** *** History navigation *)

(** C10 (back and forward).  [goBack] and [goForward] always return.  When
    the active id has a webview and that view reports that it can go back
    (resp. forward), the call is made on that view and nothing else changes;
    in every other state the whole state is left as it is.  The same holds
    for the single static webview of the early script. *)
Theorem history_navigation_guarded (st : State) (sv : SingleView.State) :
  let active := getViewElById (js "view-" ++ subst (activeTabId st)) st in
  (forall i v, active = Some (i, v) -> canGoBack v = true ->
     goBack st =
       Ok tt (set_viewsContainer
                (<[i := viewEl_call GoBack v]> (viewsContainer st)) st)) /\
  (~ (exists i v, active = Some (i, v) /\ canGoBack v = true) ->
     goBack st = Ok tt st) /\
  (forall i v, active = Some (i, v) -> canGoForward v = true ->
     goForward st =
       Ok tt (set_viewsContainer
                (<[i := viewEl_call GoForward v]> (viewsContainer st)) st)) /\
  (~ (exists i v, active = Some (i, v) /\ canGoForward v = true) ->
     goForward st = Ok tt st) /\
  (SingleView.canGoBack (SingleView.webview sv) = true ->
     SingleView.calls (SingleView.webview (SingleView.goBack sv)) =
       SingleView.calls (SingleView.webview sv) ++ [SingleView.GoBack]) /\
  (SingleView.canGoBack (SingleView.webview sv) = false ->
     SingleView.goBack sv = sv) /\
  (SingleView.canGoForward (SingleView.webview sv) = true ->
     SingleView.calls (SingleView.webview (SingleView.goForward sv)) =
       SingleView.calls (SingleView.webview sv) ++ [SingleView.GoForward]) /\
  (SingleView.canGoForward (SingleView.webview sv) = false ->
     SingleView.goForward sv = sv).
Proof.
  cbv zeta.
  assert (forall c i v,
            getViewElById (js "view-" ++ subst (activeTabId st)) st = Some (i, v) ->
            alter (viewEl_call c) i (viewsContainer st) =
              <[i := viewEl_call c v]> (viewsContainer st)) as Halter.
  { intros c i v (Hi & _)%list_find_Some. apply list_eq. intros j.
    destruct (decide (i = j)) as [<-|Hne].
    - rewrite list_lookup_alter_eq, list_lookup_insert_eq
        by (by eapply lookup_lt_Some).
      by rewrite Hi.
    - by rewrite list_lookup_alter_ne, list_lookup_insert_ne. }
  split_and!.
  - intros i v Ha Hc. unfold goBack, getActiveWebview, bind, callView, modify.
    rewrite Ha, Hc. by rewrite (Halter _ _ _ Ha).
  - intros Hno. unfold goBack, getActiveWebview, bind, callView, modify, ret.
    destruct (getViewElById _ st) as [[i v]|]; [|done].
    destruct (canGoBack v) eqn:Hc; [|done]. destruct Hno. eauto.
  - intros i v Ha Hc. unfold goForward, getActiveWebview, bind, callView, modify.
    rewrite Ha, Hc. by rewrite (Halter _ _ _ Ha).
  - intros Hno. unfold goForward, getActiveWebview, bind, callView, modify, ret.
    destruct (getViewElById _ st) as [[i v]|]; [|done].
    destruct (canGoForward v) eqn:Hc; [|done]. destruct Hno. eauto.
  - intros Hc. unfold SingleView.goBack. by rewrite Hc.
  - intros Hc. unfold SingleView.goBack. by rewrite Hc.
  - intros Hc. unfold SingleView.goForward. by rewrite Hc.
  - intros Hc. unfold SingleView.goForward. by rewrite Hc.
Qed.

(** In [two_sites], after the active view has moved on to a second page:
    going back is passed on to that view, going forward is not. *)
Lemma history_navigation_guarded_witness :
  let st := view_reports 1 (js "https://b.example/next") true false two_sites in
  (exists st',
     goBack st = Ok tt st' /\
     calls <$> viewsContainer st' = [[]; [GoBack]]) /\
  goForward st = Ok tt st.
Proof.
  cbv zeta.
  pose proof (history_navigation_guarded
                (view_reports 1 (js "https://b.example/next") true false two_sites)
                {| SingleView.isDevToolsOpen := false;
                   SingleView.isLoading := false;
                   SingleView.webview :=
                     {| SingleView.src := []; SingleView.getURL := [];
                        SingleView.canGoBack := false;
                        SingleView.canGoForward := false;
                        SingleView.calls := [] |};
                   SingleView.urlInput_value := [];
                   SingleView.urlInput_focused := false |})
    as (Hback & _ & _ & Hfwd & _).
  split.
  - eexists. split.
    + eapply Hback; vm_compute; reflexivity.
    + vm_compute. reflexivity.
  - apply Hfwd. intros (i & v & Ha & Hc). vm_compute in Ha.
    injection Ha as <- <-. discriminate Hc.
Defined.

(** The first tab is opened on [home.html]; its view then reports load
    started, load finished and a navigation to [https://a.b/].  The loading
    indicator is off and the address bar shows the new address, but the tab
    record still says [isLoading = true] and [url = home.html]. *)
Lemma tab_records_never_updated_witness :
  exists st2,
    dispatchAll [(5, js "tab-1", DidStartLoading);
                 (6, js "tab-1", DidStopLoading);
                 (7, js "tab-1", DidNavigate (js "https://a.b/"))]%N one_tab
      = Ok tt st2 /\
    tabs st2 =
      [{| id := js "tab-1"; url := js "home.html"; title := js "New Tab";
          isLoading := true |}] /\
    loadingBar_loading st2 = false /\
    urlInput_value st2 = js "https://a.b/".
Proof.
  destruct (tab_records_never_updated 1 default_url default_activate
              [(5, js "tab-1", DidStartLoading);
               (6, js "tab-1", DidStopLoading);
               (7, js "tab-1", DidNavigate (js "https://a.b/"))]%N initial)
    as (st1 & st2 & Hc & Hd & Ht); [vm_compute; reflexivity|].
  assert (st1 = one_tab) as ->.
  { unfold one_tab. by rewrite Hc. }
  exists st2. split; [exact Hd|]. split; [exact Ht|].
  vm_compute in Hd. injection Hd as <-. split; vm_compute; reflexivity.
Defined.

End TabManager.

(** * Further properties *)

(** ** Trimming and encoding *)

Section MoreStrings.

Lemma trimStart_head (s : jsstring) :
  match trimStart s with [] => True | c :: _ => isWhiteSpace c = false end.
Proof.
  induction s as [|c s IH]; [done|]. cbn [trimStart].
  by destruct (isWhiteSpace c) eqn:Hc.
Qed.

Lemma trimStart_fix (c : N) (s : jsstring) :
  isWhiteSpace c = false -> trimStart (c :: s) = c :: s.
Proof. intros Hc. cbn [trimStart]. by rewrite Hc. Qed.

Lemma trimStart_snoc (s : jsstring) (c : N) :
  isWhiteSpace c = false -> trimStart (s ++ [c]) = trimStart s ++ [c].
Proof.
  intros Hc. induction s as [|d s IH]; cbn [trimStart app].
  - by rewrite Hc.
  - by destruct (isWhiteSpace d).
Qed.

Lemma trimStart_app (s t : jsstring) (c : N) :
  isWhiteSpace c = false -> trimStart (s ++ c :: t) = trimStart s ++ c :: t.
Proof.
  intros Hc. induction s as [|d s IH]; cbn [trimStart app].
  - by rewrite Hc.
  - by destruct (isWhiteSpace d).
Qed.

(** A string that is trimmed is left alone by [trim]. *)
Lemma trim_fix (s : jsstring) : isTrimmed s = true -> trim s = s.
Proof.
  unfold isTrimmed, trim, trimEnd. intros [Hh Hl]%andb_true_iff.
  destruct s as [|c s]; [done|]. apply negb_true_iff in Hh.
  rewrite trimStart_fix by done.
  destruct (rev (c :: s)) as [|d r] eqn:Hr.
  { apply (f_equal length) in Hr. by rewrite length_rev in Hr. }
  apply negb_true_iff in Hl. rewrite trimStart_fix by done.
  by rewrite <- Hr, rev_involutive.
Qed.

(** What [trim] returns is trimmed. *)
Lemma trim_isTrimmed (s : jsstring) : isTrimmed (trim s) = true.
Proof.
  unfold isTrimmed, trim, trimEnd. rewrite rev_involutive.
  pose proof (trimStart_head s) as Hs.
  pose proof (trimStart_head (rev (trimStart s))) as Hr.
  apply andb_true_iff. split.
  - destruct (trimStart s) as [|c t]; [done|].
    cbn [rev] in *. rewrite trimStart_snoc by done.
    rewrite rev_app_distr. cbn. by rewrite Hs.
  - destruct (trimStart (rev (trimStart s))); [done|]. by rewrite Hr.
Qed.

Lemma trim_idempotent (s : jsstring) : trim (trim s) = trim s.
Proof. apply trim_fix, trim_isTrimmed. Qed.

Lemma isTrimmed_app (p s : jsstring) :
  match p with [] => False | c :: _ => isWhiteSpace c = false end ->
  s <> [] -> isTrimmed s = true -> isTrimmed (p ++ s) = true.
Proof.
  unfold isTrimmed. destruct p as [|c p]; [done|].
  intros Hc Hne [_ Hl]%andb_true_iff.
  cbn [app]. rewrite Hc. cbn [negb andb].
  change (c :: p ++ s) with ((c :: p) ++ s). rewrite rev_app_distr.
  destruct (rev s) as [|d r] eqn:Hr; [|done].
  apply (f_equal length) in Hr. rewrite length_rev in Hr. by destruct s.
Qed.

(** [includes] for a one-character needle is membership. *)
Lemma includes_char (s : jsstring) (c : N) :
  includes s [c] = true <-> c ∈ s.
Proof.
  induction s as [|d s IH]; cbn.
  - split; [done|]. by intros ?%elem_of_nil.
  - rewrite orb_true_iff, IH, elem_of_cons. clear IH.
    destruct s; cbn; rewrite ?andb_true_r, N.eqb_eq; naive_solver.
Qed.

Lemma includes_char_false (s : jsstring) (c : N) :
  includes s [c] = false <-> c ∉ s.
Proof.
  rewrite <- includes_char. by destruct (includes s [c]).
Qed.

Lemma hexDigit_not_delimiter (d : N) : isQueryDelimiter (hexDigit d) = false.
Proof.
  unfold isQueryDelimiter, hexDigit.
  rewrite !orb_false_iff, !N.eqb_neq. destruct (N.ltb_spec d 10); lia.
Qed.

Lemma percentEncodeAll_not_delimiter (octets : list N) :
  Forall (fun c => isQueryDelimiter c = false) (percentEncodeAll octets).
Proof.
  unfold percentEncodeAll. induction octets as [|o octets IH]; cbn; [done|].
  repeat (apply Forall_cons; split); auto using hexDigit_not_delimiter.
Qed.

Lemma unescaped_not_delimiter (c : N) :
  isUriUnescaped c = true -> isQueryDelimiter c = false.
Proof.
  unfold isUriUnescaped, isAlpha, isDigit, isUriMark, isQueryDelimiter.
  rewrite !orb_true_iff, !andb_true_iff, !N.leb_le, !N.eqb_eq.
  rewrite !orb_false_iff, !N.eqb_neq. lia.
Qed.

(** The output of [encodeURIComponent] holds no query delimiter and no
    white space. *)
Lemma encode_not_delimiter (s q : jsstring) :
  encode s = Some q -> Forall (fun c => isQueryDelimiter c = false) q.
Proof.
  cut (forall n (s q : jsstring), (length s <= n)%nat -> encode s = Some q ->
         Forall (fun c => isQueryDelimiter c = false) q).
  { intros H. by apply (H (length s)). }
  clear. induction n as [|n IH]; intros [|c rest] q Hlen; cbn [encode];
    try (intros [= <-]; done); cbn in Hlen; try lia.
  destruct (isUriUnescaped c) eqn:Hu.
  { intros (q' & Hq & ->)%fmap_Some. apply Forall_cons. split.
    - by apply unescaped_not_delimiter.
    - apply (IH rest); [lia|done]. }
  destruct (isTrailingSurrogate c); [done|].
  destruct (isLeadingSurrogate c).
  - destruct rest as [|d rest']; [done|].
    destruct (isTrailingSurrogate d); [|done].
    intros (q' & Hq & ->)%fmap_Some. apply Forall_app. split.
    + apply percentEncodeAll_not_delimiter.
    + apply (IH rest'); [cbn in Hlen; lia|done].
  - intros (q' & Hq & ->)%fmap_Some. apply Forall_app. split.
    + apply percentEncodeAll_not_delimiter.
    + apply (IH rest); [lia|done].
Qed.

End MoreStrings.

Section Octets.

Local Open Scope N_scope.

Lemma lor_lt_pow2 (a b n : N) :
  (a < 2 ^ n -> b < 2 ^ n -> N.lor a b < 2 ^ n)%N.
Proof.
  intros Ha Hb.
  destruct (N.eq_dec (N.lor a b) 0) as [->|Hne]; [lia|].
  apply N.log2_lt_pow2; [lia|]. rewrite N.log2_lor.
  destruct (N.eq_dec a 0) as [->|Ha0], (N.eq_dec b 0) as [->|Hb0];
    cbn in Hne; try done.
  - rewrite N.max_r by apply N.le_0_l. apply N.log2_lt_pow2; lia.
  - rewrite N.max_l by apply N.le_0_l. apply N.log2_lt_pow2; lia.
  - apply N.max_lub_lt; apply N.log2_lt_pow2; lia.
Qed.

Lemma shiftr_lt (a k m : N) : (a < 2 ^ (k + m) -> N.shiftr a k < 2 ^ m)%N.
Proof.
  intros Ha. rewrite N.shiftr_div_pow2.
  apply N.Div0.div_lt_upper_bound. by rewrite <- N.pow_add_r.
Qed.

Lemma land_lt (a n : N) : (N.land a (N.ones n) < 2 ^ n)%N.
Proof. rewrite N.land_ones. apply N.mod_lt. by apply N.pow_nonzero. Qed.

(** The UTF-8 octets of a code point below 2^21 are octets. *)
Lemma utf8_octets (cp : N) :
  (cp < 0x200000)%N -> Forall (fun o => (o < 256)%N) (utf8 cp).
Proof.
  intros Hcp. unfold utf8.
  assert (forall x, (N.lor 0x80 (N.land x 0x3F) < 256)%N) as Hcont.
  { intros x. apply (lor_lt_pow2 _ _ 8); [done|].
    change 0x3F%N with (N.ones 6). pose proof (land_lt x 6). lia. }
  destruct (N.ltb_spec cp 0x80); [repeat constructor; lia|].
  destruct (N.ltb_spec cp 0x800).
  { repeat constructor; [|done].
    apply (lor_lt_pow2 _ _ 8); [done|].
    pose proof (shiftr_lt cp 6 5). cbn in *. lia. }
  destruct (N.ltb_spec cp 0x10000).
  { repeat constructor; [|done..].
    apply (lor_lt_pow2 _ _ 8); [done|].
    pose proof (shiftr_lt cp 12 4). cbn in *. lia. }
  repeat constructor; [|done..].
  apply (lor_lt_pow2 _ _ 8); [done|].
  pose proof (shiftr_lt cp 18 3). cbn in *. lia.
Qed.

Lemma hexDigit_encoded (d : N) : (d < 16)%N -> isEncoded (hexDigit d) = true.
Proof.
  intros Hd. unfold isEncoded, isUriUnescaped, isAlpha, isDigit, hexDigit.
  rewrite !orb_true_iff, !andb_true_iff, !N.leb_le.
  destruct (N.ltb_spec d 10); lia.
Qed.

Lemma percentEncodeAll_encoded (octets : list N) :
  Forall (fun o => (o < 256)%N) octets ->
  Forall (fun c => isEncoded c = true) (percentEncodeAll octets).
Proof.
  unfold percentEncodeAll. induction 1 as [|o octets Ho _ IH]; cbn; [done|].
  repeat (apply Forall_cons; split); [done| | |done].
  - apply hexDigit_encoded. pose proof (shiftr_lt o 4 4). cbn in *. lia.
  - apply hexDigit_encoded. change 0xF%N with (N.ones 4).
    pose proof (land_lt o 4). cbn in *. lia.
Qed.

(** [encodeURIComponent] produces unescaped characters and percent signs
    only. *)
Lemma encode_encoded (s q : jsstring) :
  isString s = true -> encode s = Some q ->
  Forall (fun c => isEncoded c = true) q.
Proof.
  cut (forall n (s q : jsstring), (length s <= n)%nat ->
         isString s = true -> encode s = Some q ->
         Forall (fun c => isEncoded c = true) q).
  { intros H. by apply (H (length s)). }
  clear. induction n as [|n IH]; intros [|c rest] q Hlen; cbn [encode];
    try (intros _ [= <-]; done); cbn in Hlen; try lia.
  unfold isString. cbn [forallb]. intros [Hc Hrest]%andb_true_iff.
  apply N.ltb_lt in Hc.
  destruct (isUriUnescaped c) eqn:Hu.
  { intros (q' & Hq & ->)%fmap_Some. apply Forall_cons. split.
    - unfold isEncoded. by rewrite Hu.
    - apply (IH rest); [lia|done..]. }
  destruct (isTrailingSurrogate c); [done|].
  destruct (isLeadingSurrogate c) eqn:Hlead.
  - destruct rest as [|d rest']; [done|].
    destruct (isTrailingSurrogate d) eqn:Htrail; [|done].
    cbn [forallb] in Hrest. apply andb_true_iff in Hrest as [_ Hrest'].
    intros (q' & Hq & ->)%fmap_Some. apply Forall_app. split.
    + apply percentEncodeAll_encoded, utf8_octets.
      unfold isLeadingSurrogate, isTrailingSurrogate, surrogatePairToCodePoint in *.
      rewrite !andb_true_iff, !N.leb_le in Hlead, Htrail. lia.
    + apply (IH rest'); [cbn in Hlen; lia|done..].
  - intros (q' & Hq & ->)%fmap_Some. apply Forall_app. split.
    + apply percentEncodeAll_encoded, utf8_octets. lia.
    + apply (IH rest); [lia|done..].
Qed.

Lemma encoded_not_whiteSpace (c : N) : isEncoded c = true -> isWhiteSpace c = false.
Proof.
  unfold isEncoded, isUriUnescaped, isAlpha, isDigit, isUriMark, isWhiteSpace.
  rewrite !orb_true_iff, !andb_true_iff, !N.leb_le, !N.eqb_eq.
  rewrite !orb_false_iff, !andb_false_iff, !N.leb_gt, !N.eqb_neq. lia.
Qed.

Lemma isString_trim (s : jsstring) : isString s = true -> isString (trim s) = true.
Proof.
  unfold isString, trim, trimEnd.
  assert (forall t : jsstring,
            forallb (fun c => (c <? 0x10000)%N) t = true ->
            forallb (fun c => (c <? 0x10000)%N) (trimStart t) = true) as Hts.
  { induction t as [|c t IH]; [done|]. cbn [trimStart].
    destruct (isWhiteSpace c); [|done].
    cbn [forallb]. intros [_ ?]%andb_true_iff. auto. }
  assert (forall t : jsstring,
            forallb (fun c => (c <? 0x10000)%N) t = true ->
            forallb (fun c => (c <? 0x10000)%N) (rev t) = true) as Hrev.
  { intros t Ht. apply forallb_forall. intros x Hx%in_rev.
    by eapply forallb_forall in Ht. }
  auto.
Qed.

End Octets.

(** ** Address formatter, continued *)

Section FormatterResults.

Lemma test_http_scheme_https (u : jsstring) :
  test_http_scheme (js "https://" ++ u) = true.
Proof. by destruct u. Qed.

(** The three ways in which the multi-tab formatter handles a non-empty
    input. *)
Lemma formatUrl_cases (input : jsstring) :
  input <> [] ->
  let url := trim input in
  (includes url (js " ") || negb (includes url (js ".")) = true /\
   formatUrl input =
     match encode url with
     | Some q => Normal (search_prefix ++ q)
     | None => Abrupt URIError
     end) \/
  (includes url (js " ") = false /\ includes url (js ".") = true /\
   test_http_scheme url = false /\ formatUrl input = Normal (js "https://" ++ url)) \/
  (includes url (js " ") = false /\ includes url (js ".") = true /\
   test_http_scheme url = true /\ formatUrl input = Normal url).
Proof.
  intros Hne. cbv zeta. unfold formatUrl, encodeURIComponent.
  destruct input as [|c input]; [done|]. cbn [truthy negb]. cbv zeta.
  destruct (includes _ (js " ")) eqn:Hsp; cbn [orb].
  { left. split; [done|]. by destruct (encode _). }
  destruct (includes _ (js ".")) eqn:Hdot; cbn [negb].
  - right. destruct (test_http_scheme _) eqn:Hs; cbn [negb]; [right|left]; done.
  - left. split; [done|]. by destruct (encode _).
Qed.

(** X1.  The formatter throws exactly on the non-empty inputs that go to the
    search branch and are not well-formed UTF-16 once trimmed, and what it
    throws is the [URIError] of [encodeURIComponent]. *)
Theorem formatUrl_throws_iff (input : jsstring) (e : Error) :
  formatUrl input = Abrupt e <->
  e = URIError /\ input <> [] /\
  (includes (trim input) (js " ") = true \/
   includes (trim input) (js ".") = false) /\
  isWellFormed (trim input) = false.
Proof.
  destruct (decide (input = [])) as [->|Hne].
  { split; [done|]. by intros (_ & ? & _). }
  destruct (formatUrl_cases input Hne) as [[Hs Hf]|[(Hsp & Hdot & _ & Hf)|(Hsp & Hdot & _ & Hf)]];
    cbv zeta in *; rewrite Hf.
  - destruct (encode (trim input)) as [q|] eqn:Hq.
    + split; [done|]. intros (_ & _ & _ & Hwf).
      assert (isWellFormed (trim input) = true) by (apply encode_wellFormed; eauto).
      congruence.
    + split.
      * intros [= <-]. split_and!; [done..| |].
        -- apply orb_true_iff in Hs as [?|?%negb_true_iff]; auto.
        -- destruct (isWellFormed (trim input)) eqn:Hwf; [|done].
           apply encode_wellFormed in Hwf as [? ?]. congruence.
      * by intros (-> & _).
  - split; [done|]. intros (_ & _ & [?|?] & _); congruence.
  - split; [done|]. intros (_ & _ & [?|?] & _); congruence.
Qed.

(** X2.  Whatever the formatter returns is the home page or carries an http or
    https scheme: no other scheme typed into the address bar reaches a
    webview. *)
Theorem formatUrl_result_scheme (input r : jsstring) :
  formatUrl input = Normal r ->
  r = js "home.html" \/ test_http_scheme r = true.
Proof.
  destruct (decide (input = [])) as [->|Hne].
  { intros [= <-]. by left. }
  intros Hr. right.
  destruct (formatUrl_cases input Hne) as [[Hs Hf]|[(Hsp & Hdot & _ & Hf)|(Hsp & Hdot & Hscheme & Hf)]];
    cbv zeta in *; rewrite Hf in Hr.
  - destruct (encode (trim input)); [|done]. injection Hr as <-.
    vm_compute. reflexivity.
  - injection Hr as <-. apply test_http_scheme_https.
  - by injection Hr as <-.
Qed.

Lemma formatUrl_result_scheme_witness :
  formatUrl (js "javascript:alert(1)") =
    Normal (js "https://www.google.com/search?q=javascript%3Aalert(1)") /\
  (js "https://www.google.com/search?q=javascript%3Aalert(1)" = js "home.html" \/
   test_http_scheme (js "https://www.google.com/search?q=javascript%3Aalert(1)") = true).
Proof.
  split; [reflexivity|].
  apply (formatUrl_result_scheme (js "javascript:alert(1)")). reflexivity.
Defined.

(** X3.  When the input is taken for a search, the result is the search
    address followed by a query without space, [#], [&], [+], [/], [=] or
    [?]: the typed text stays inside the [q] parameter. *)
Theorem formatUrl_search_query (input r : jsstring) :
  input <> [] ->
  includes (trim input) (js " ") = true \/ includes (trim input) (js ".") = false ->
  formatUrl input = Normal r ->
  exists q,
    r = search_prefix ++ q /\ encode (trim input) = Some q /\
    Forall (fun c => isQueryDelimiter c = false) q.
Proof.
  intros Hne Hs Hr.
  destruct (formatUrl_cases input Hne) as [[_ Hf]|[(Hsp & Hdot & _ & _)|(Hsp & Hdot & _ & _)]];
    cbv zeta in *; [|destruct Hs; congruence..].
  rewrite Hf in Hr. destruct (encode (trim input)) as [q|] eqn:Hq; [|done].
  injection Hr as <-. exists q. split_and!; [done..|].
  by eapply encode_not_delimiter.
Qed.

Lemma formatUrl_search_query_witness :
  exists q,
    js "https://www.google.com/search?q=a%26b%3D1%20%23x" = search_prefix ++ q /\
    encode (trim (js " a&b=1 #x ")) = Some q /\
    Forall (fun c => isQueryDelimiter c = false) q.
Proof.
  apply (formatUrl_search_query (js " a&b=1 #x ")); [done|by left|reflexivity].
Defined.

Lemma nonspace_isTrimmed (s : jsstring) :
  Forall (fun c => isWhiteSpace c = false) s -> isTrimmed s = true.
Proof.
  intros Hs. unfold isTrimmed. apply andb_true_iff. split.
  - destruct Hs as [|c s Hc _]; [done|]. by rewrite Hc.
  - apply Forall_rev in Hs. destruct Hs as [|c r Hc _]; [done|]. by rewrite Hc.
Qed.

Lemma nonspace_no_space (s : jsstring) :
  Forall (fun c => isWhiteSpace c = false) s -> includes s (js " ") = false.
Proof.
  intros Hs. apply (includes_char_false s 0x20). intros Hin.
  rewrite Forall_forall in Hs. specialize (Hs _ Hin). done.
Qed.

(** X4.  Formatting is idempotent away from the empty input: what the formatter
    made of a non-empty input it returns unchanged when given it again. *)
Theorem formatUrl_idempotent (input r : jsstring) :
  input <> [] -> isString input = true ->
  formatUrl input = Normal r -> formatUrl r = Normal r.
Proof.
  intros Hne Hstr Hr.
  destruct (formatUrl_cases input Hne)
    as [[Hs Hf]|[(Hsp & Hdot & _ & Hf)|(Hsp & Hdot & Hscheme & Hf)]];
    cbv zeta in *; rewrite Hf in Hr.
  - destruct (encode (trim input)) as [q|] eqn:Hq; [|done]. injection Hr as <-.
    assert (Forall (fun c => isWhiteSpace c = false) (search_prefix ++ q)) as Hns.
    { apply Forall_app. split.
      - assert (forallb (fun c => negb (isWhiteSpace c)) search_prefix = true)
          as Hp by (vm_compute; reflexivity).
        apply Forall_forall. intros c Hc%list_elem_of_In.
        by apply negb_true_iff, (proj1 (forallb_forall _ _) Hp).
      - eapply Forall_impl; [by eapply encode_encoded, Hq; apply isString_trim|].
        apply encoded_not_whiteSpace. }
    apply formatUrl_unchanged.
    + by apply trim_fix, nonspace_isTrimmed.
    + by apply nonspace_no_space.
    + apply (includes_char (search_prefix ++ q) 0x2E). rewrite elem_of_app. left.
      apply (includes_char search_prefix 0x2E). vm_compute. reflexivity.
    + vm_compute. reflexivity.
  - injection Hr as <-.
    apply (includes_char _ 0x2E) in Hdot. apply (includes_char_false _ 0x20) in Hsp.
    assert (trim input <> []) as Hu by (intros Hnil; rewrite Hnil in Hdot; by apply elem_of_nil in Hdot).
    apply (formatUrl_unchanged (js "https://" ++ trim input)).
    + apply (trim_fix (js "https://" ++ trim input)).
      exact (isTrimmed_app (js "https://") (trim input) eq_refl Hu
               (trim_isTrimmed input)).
    + apply (includes_char_false (js "https://" ++ trim input) 0x20).
      rewrite elem_of_app. intros [Hin|Hin]; [|done].
      apply (includes_char (js "https://") 0x20) in Hin. vm_compute in Hin.
      discriminate.
    + apply (includes_char (js "https://" ++ trim input) 0x2E).
      rewrite elem_of_app. by right.
    + apply test_http_scheme_https.
  - injection Hr as <-. apply formatUrl_unchanged; [apply trim_idempotent|done..].
Qed.

Lemma formatUrl_idempotent_witness :
  formatUrl (js "  what is rocq?  ") =
    Normal (js "https://www.google.com/search?q=what%20is%20rocq%3F") /\
  formatUrl (js "https://www.google.com/search?q=what%20is%20rocq%3F") =
    Normal (js "https://www.google.com/search?q=what%20is%20rocq%3F").
Proof.
  split; [reflexivity|].
  apply (formatUrl_idempotent (js "  what is rocq?  ")); [done|reflexivity..].
Defined.

(** The single-view formatter on a blank input. *)
Lemma SingleView_formatUrl_blank_witness :
  SingleView.formatUrl (fun _ => None) (js "   ")
    {| SingleView.isDevToolsOpen := false; SingleView.isLoading := false;
       SingleView.webview :=
         {| SingleView.src := js "https://a.example/"; SingleView.getURL := [];
            SingleView.canGoBack := false; SingleView.canGoForward := false;
            SingleView.calls := [] |};
       SingleView.urlInput_value := js "   ";
       SingleView.urlInput_focused := true |}
  = Normal (js "https://a.example/").
Proof. apply (SingleView_formatUrl_blank (fun _ => None) (js "   ")). reflexivity. Defined.

End FormatterResults.

(** ** Sessions *)

Section Session.

Lemma fmap_alter_key {A} (key : A -> jsstring) (f : A -> A) (i : nat) (l : list A) :
  (forall a, key (f a) = key a) -> key <$> alter f i l = key <$> l.
Proof.
  intros Hf. rewrite (list_fmap_alter _ _ (fun x => x)); [by rewrite list_alter_id|].
  by apply Forall_true.
Qed.

Lemma fmap_fmap_key {A} (key : A -> jsstring) (f : A -> A) (l : list A) :
  (forall a, key (f a) = key a) -> key <$> (f <$> l) = key <$> l.
Proof.
  intros Hf. rewrite <- list_fmap_compose. apply list_fmap_ext. intros ? a _.
  apply Hf.
Qed.

Ltac frame :=
  unfold same_shape, urlInput_keydown, navigateTo, updateLoading, updateUrl,
    updateTitle, goBack, goForward, reload, callView, updateNavigationButtons,
    getActiveWebview, bind, modify, get, ret, throw, view_reports,
    focus_and_type;
  repeat (case_match; simplify_eq);
  cbn [final tabs activeTabId tabBar viewsContainer set_tabs set_activeTabId
       set_tabBar set_viewsContainer set_urlInput_value set_navButtons
       set_loadingBar set_timeouts set_document_title set_urlInput_focused
       set_isSplitView set_splitTabId];
  rewrite ?fmap_alter_key by done; done.

Lemma same_shape_refl (s : State) : same_shape s s.
Proof. done. Qed.

Lemma same_shape_trans (s1 s2 s3 : State) :
  same_shape s1 s2 -> same_shape s2 s3 -> same_shape s1 s3.
Proof.
  intros (? & ? & ? & ?) (? & ? & ? & ?). split_and!; congruence.
Qed.

Lemma consistent_same_shape (s s' : State) :
  consistent s -> same_shape s s' -> consistent s'.
Proof.
  intros ([Hb Hv] & Hne & x & Ha & t & Hin & Hid) (Ht & Hact & Hbs & Hvs).
  split_and!.
  - split; [by rewrite Hbs, Ht|by rewrite Hvs, Ht].
  - by rewrite Ht.
  - exists x. split; [by rewrite Hact|]. exists t. by rewrite Ht.
Qed.

Lemma goBack_shape (s : State) : same_shape s (final (goBack s)).
Proof. frame. Qed.

Lemma goForward_shape (s : State) : same_shape s (final (goForward s)).
Proof. frame. Qed.

Lemma reload_shape (s : State) : same_shape s (final (reload s)).
Proof. frame. Qed.

Lemma updateLoading_shape (tabId : jsstring) (b : bool) (s : State) :
  same_shape s (final (updateLoading tabId b s)).
Proof. frame. Qed.

Lemma updateUrl_shape (tabId u : jsstring) (s : State) :
  same_shape s (final (updateUrl tabId u s)).
Proof. frame. Qed.

Lemma updateTitle_shape (tabId t : jsstring) (s : State) :
  same_shape s (final (updateTitle tabId t s)).
Proof. frame. Qed.

Lemma urlInput_keydown_shape (key : jsstring) (s : State) :
  same_shape s (final (urlInput_keydown key s)).
Proof. frame. Qed.

Lemma focus_and_type_shape (text : jsstring) (s : State) :
  same_shape s (focus_and_type text s).
Proof. done. Qed.

Lemma view_reports_shape (i : nat) (u : jsstring) (b f : bool) (s : State) :
  same_shape s (view_reports i u b f s).
Proof. frame. Qed.

(** *** Closing a live tab *)

Lemma neighbour_Some (i : nat) (l : list TabData) :
  (i < length l)%nat -> (2 <= length l)%nat ->
  exists next,
    neighbour i l = Some next /\ next ∈ delete i l /\
    next = default next (l !! (if decide (i + 1 < length l)%nat
                               then (i + 1)%nat else (i - 1)%nat)) /\
    is_Some (l !! (if decide (i + 1 < length l)%nat then (i + 1)%nat else (i - 1)%nat)).
Proof.
  intros Hi Hlen. unfold neighbour. rewrite index_nat.
  case_decide as Hlt.
  - destruct (lookup_lt_is_Some_2 l (i + 1)) as [next Hn]; [done|].
    assert (delete i l !! i = Some next) as Hd.
    { rewrite list_lookup_delete_ge by done. by rewrite <- Hn, Nat.add_1_r. }
    exists next. rewrite Hd, Hn. split_and!; [done| |done|by eexists].
    by eapply list_elem_of_lookup_2.
  - assert (delete i l !! i = None) as Hd.
    { apply lookup_ge_None. rewrite length_delete by (by apply lookup_lt_is_Some).
      lia. }
    destruct (lookup_lt_is_Some_2 l (i - 1)) as [next Hn]; [lia|].
    assert (delete i l !! (i - 1)%nat = Some next) as Hd'.
    { rewrite list_lookup_delete_lt by lia. done. }
    exists next. rewrite Hd, Hn.
    replace (Z.of_nat i - 1)%Z with (Z.of_nat (i - 1)) by lia.
    rewrite index_nat. split_and!; [done| |done|by eexists].
    by eapply list_elem_of_lookup_2.
Qed.

Lemma closed_paired (i : nat) (s : State) : paired s -> paired (closed i s).
Proof.
  intros [Hb Hv]. split; cbn; rewrite !list_fmap_delete; by f_equal.
Qed.

(** [closeTab] on the id of a tab, step by step. *)
Lemma closeTab_live (s : State) (tabId : jsstring) (i : nat) (t : TabData) :
  paired s -> (2 <= length (tabs s))%nat ->
  list_find (fun t => id t = tabId) (tabs s) = Some (i, t) ->
  closeTab tabId s =
    if bool_decide (activeTabId s = Some tabId) then
      match neighbour i (tabs s) with
      | Some next => switchTab (id next) (closed i s)
      | None => Thrown TypeError (closed i s)
      end
    else Ok tt (closed i s).
Proof.
  intros Hp Hlen Hfind.
  destruct (findIndex_found _ _ _ _ Hfind) as [Hidx Hi].
  destruct (paired_find s tabId Hp) as [Hb Hv]. rewrite Hfind in Hb, Hv.
  destruct (getTabElById _ s) as [[ib e]|] eqn:Hbtn; [|done].
  destruct (getViewElById _ s) as [[iv v]|] eqn:Hview; [|done].
  cbn in Hb, Hv. simplify_eq.
  unfold closeTab, bind, get, modify, ret, throw.
  rewrite bool_decide_false by lia. rewrite Hidx, splice1_found by done.
  unfold getTabElById, getViewElById in *.
  cbn [tabBar set_tabs]. rewrite Hbtn.
  cbn [viewsContainer set_tabs set_tabBar]. rewrite Hview.
  cbn [activeTabId set_viewsContainer set_tabBar set_tabs].
  unfold strict_eq. case_bool_decide; [|done].
  cbn [tabBar viewsContainer tabs set_viewsContainer set_tabs set_tabBar].
  unfold neighbour, closed. by destruct (index _ _); [|destruct (index _ _)].
Qed.

(** X8.  Closing a background tab removes that tab, its button and its webview
    and touches nothing else: the active id, the address bar, the navigation
    buttons and the loading indicator stay as they are. *)
Theorem closeTab_background (s : State) (tabId : jsstring) (i : nat) (t : TabData) :
  paired s -> (2 <= length (tabs s))%nat ->
  list_find (fun t => id t = tabId) (tabs s) = Some (i, t) ->
  activeTabId s <> Some tabId ->
  closeTab tabId s = Ok tt (closed i s).
Proof.
  intros Hp Hlen Hfind Hact. rewrite (closeTab_live s tabId i t) by done.
  by rewrite bool_decide_false.
Qed.

Lemma closeTab_background_witness :
  closeTab (js "tab-1") three_tabs = Ok tt (closed 0 three_tabs) /\
  activeTabId (closed 0 three_tabs) = Some (js "tab-3") /\
  id <$> tabs (closed 0 three_tabs) = [js "tab-2"; js "tab-3"].
Proof.
  split; [|split; vm_compute; reflexivity].
  eapply (closeTab_background three_tabs (js "tab-1") 0);
    [split; vm_compute; reflexivity | vm_compute; lia
    | vm_compute; reflexivity | vm_compute; discriminate].
Defined.

(** *** The session invariant *)

Lemma switchTabTo_Some (tabId : jsstring) : switchTabTo (Some tabId) = switchTab tabId.
Proof. reflexivity. Qed.

Lemma paired_live_button (s : State) (tabId : jsstring) :
  paired s ->
  (is_Some (getTabElById (js "btn-" ++ tabId) s) <-> live tabId s).
Proof.
  intros Hp. destruct (paired_find s tabId Hp) as [Hb _]. split.
  - intros [[i e] He]. rewrite He in Hb. cbn in Hb.
    destruct (list_find _ (tabs s)) as [[j t]|] eqn:Hf; [|done].
    apply list_find_Some in Hf as (Hj & Hid & _).
    exists t. split; [|done]. by eapply list_elem_of_In, list_elem_of_lookup_2.
  - intros (t & Hin%list_elem_of_In & Hid).
    destruct (list_find_elem_of (fun t => id t = tabId) (tabs s) t Hin Hid) as [[j t'] Hf].
    rewrite Hf in Hb. by destruct (getTabElById _ s) as [[??]|].
Qed.

Lemma live_find (s : State) (tabId : jsstring) :
  live tabId s -> exists i t, list_find (fun t => id t = tabId) (tabs s) = Some (i, t).
Proof.
  intros (t & Hin%list_elem_of_In & Hid).
  destruct (list_find_elem_of (fun t => id t = tabId) (tabs s) t Hin Hid) as [[j t'] Hf].
  eauto.
Qed.

Lemma elem_of_delete_other {A} (l : list A) (i : nat) (x y : A) :
  l !! i = Some x -> y ∈ l -> y <> x -> y ∈ delete i l.
Proof.
  intros Hi [j Hj]%list_elem_of_lookup Hne.
  assert (j <> i) by (intros ->; congruence).
  destruct (decide (j < i)%nat).
  - apply list_elem_of_lookup. exists j. by rewrite list_lookup_delete_lt.
  - apply list_elem_of_lookup. exists (j - 1)%nat.
    rewrite list_lookup_delete_ge by lia. rewrite <- Hj. f_equal. lia.
Qed.

Lemma createTab_consistent (now : N) (url : jsstring) (s : State) :
  paired s ->
  exists s',
    createTab now url true s = Ok (js "tab-" ++ numberToString now) s' /\
    consistent s' /\
    activeTabId s' = Some (js "tab-" ++ numberToString now) /\
    tabs s' =
      tabs s ++ [{| id := js "tab-" ++ numberToString now; url := url;
                    title := js "New Tab"; isLoading := true |}] /\
    tabEl_id <$> tabBar s' =
      (tabEl_id <$> tabBar s) ++ [js "btn-" ++ js "tab-" ++ numberToString now] /\
    viewEl_id <$> viewsContainer s' =
      (viewEl_id <$> viewsContainer s) ++ [js "view-" ++ js "tab-" ++ numberToString now].
Proof.
  intros Hp. destruct (createTab_ok now url true s) as (s' & Hs' & Ht).
  pose proof (createTab_paired now url true s Hp) as Hp'.
  rewrite Hs' in Hp'. cbn [final] in Hp'.
  pose proof (createTab_unfold now url true s) as Hu. rewrite Hs' in Hu.
  pose proof (switchTab_frame (js "tab-" ++ numberToString now) (created now url s))
    as (_ & Ha & Hbs & Hvs & _).
  destruct (switchTab _ _) as [[] s''|]; [|done]. injection Hu as <-.
  cbn [final] in Ha, Hbs, Hvs.
  exists s'. split_and!; [done| |done|done| |].
  - split_and!; [done|rewrite Ht; by destruct (tabs s)|].
    eexists. split; [done|].
    exists {| id := js "tab-" ++ numberToString now; url := url;
              title := js "New Tab"; isLoading := true |}.
    split; [|done]. rewrite Ht. apply in_or_app. right. by left.
  - rewrite Hbs. cbn. by rewrite fmap_app.
  - rewrite Hvs. cbn. by rewrite fmap_app.
Qed.

Lemma switchTab_consistent (tabId : jsstring) (s : State) :
  paired s -> tabs s <> [] -> live tabId s ->
  exists s', switchTab tabId s = Ok tt s' /\ consistent s' /\
             tabs s' = tabs s /\ activeTabId s' = Some tabId.
Proof.
  intros Hp Hne Hlive.
  destruct (switchTab_ok tabId s) as [s' Hs']; [by apply paired_live_button|].
  pose proof (switchTab_frame tabId s) as (Ht & Ha & Hbs & Hvs & _).
  rewrite Hs' in *. cbn [final] in *. exists s'. split_and!; [done| |done..].
  destruct Hp as [Hb Hv]. split_and!.
  - split; [by rewrite Hbs, Ht|by rewrite Hvs, Ht].
  - by rewrite Ht.
  - exists tabId. split; [done|]. destruct Hlive as (t & ? & ?). exists t. by rewrite Ht.
Qed.

Lemma closeTab_consistent (tabId : jsstring) (s : State) :
  consistent s -> live tabId s ->
  exists s', closeTab tabId s = Ok tt s' /\ consistent s'.
Proof.
  intros Hc Hlive. pose proof Hc as (Hp & Hne & y & Hact & Hy).
  destruct (decide (length (tabs s) <= 1)%nat) as [Hle|Hgt].
  { exists s. split; [|done]. unfold closeTab, bind, get, ret.
    by rewrite bool_decide_true. }
  destruct (live_find s tabId Hlive) as (i & t & Hfind).
  rewrite (closeTab_live s tabId i t) by (done || lia).
  pose proof Hfind as (Hi & Hid & _)%list_find_Some.
  pose proof (lookup_lt_Some _ _ _ Hi) as Hlt.
  destruct (neighbour_Some i (tabs s)) as (next & Hn & Hin & _); [done|lia|].
  case_bool_decide as Hactive.
  - rewrite Hn.
    destruct (switchTab_consistent (id next) (closed i s)) as (s' & Hs' & Hc' & _).
    + by apply closed_paired.
    + cbn. intros Hnil. rewrite Hnil in Hin. by apply elem_of_nil in Hin.
    + exists next. split; [by apply list_elem_of_In|done].
    + by exists s'.
  - exists (closed i s). split; [done|]. split_and!.
    + by apply closed_paired.
    + cbn. intros Hnil. rewrite Hnil in Hin. by apply elem_of_nil in Hin.
    + exists y. split; [done|]. destruct Hy as (ty & Hty & Hidy).
      exists ty. split; [|done]. apply list_elem_of_In. cbn.
      apply (elem_of_delete_other _ _ t); [done|by apply list_elem_of_In|].
      intros ->. congruence.
Qed.

Lemma dispatch_consistent (now : N) (tabId : jsstring) (e : ViewEvent) (s : State) :
  consistent s -> consistent (final (dispatch now tabId e s)).
Proof.
  intros Hc. destruct e as [| |t|u|u|u]; cbn [dispatch].
  - eapply consistent_same_shape, updateLoading_shape; done.
  - eapply consistent_same_shape, updateLoading_shape; done.
  - eapply consistent_same_shape, updateTitle_shape; done.
  - eapply consistent_same_shape, updateUrl_shape; done.
  - eapply consistent_same_shape, updateUrl_shape; done.
  - destruct Hc as (Hp & _).
    destruct (createTab_consistent now u s Hp) as (s' & Hs' & Hc' & _).
    unfold bind, ret. unfold default_activate. by rewrite Hs'.
Qed.

Lemma show_ids (i : jsstring) (views : list ViewEl) :
  viewEl_id <$>
    match list_find (fun w => viewEl_id w = i) views with
    | Some (k, _) => alter (viewEl_set_display DisplayFlex) k views
    | None => views
    end = viewEl_id <$> views.
Proof. destruct (list_find _ _) as [[??]|]; [|done]. by rewrite fmap_alter_key. Qed.

Lemma toggleSplitView_consistent (p : Page) :
  consistent (page_state p) -> consistent (toggleSplitView p).2.(page_state).
Proof.
  intros Hc. unfold toggleSplitView.
  set (s := set_isSplitView _ _).
  assert (same_shape (page_state p) s) as Hshape by done.
  assert (consistent s) as Hcs by by eapply consistent_same_shape.
  destruct (isSplitView s && _).
  - destruct (tabs s) as [|t1 [|t2 l]] eqn:Ht; cbn [snd page_state]; [done..|].
    eapply consistent_same_shape; [exact Hcs|].
    split_and!; [done..|].
    cbn. rewrite !show_ids. by rewrite fmap_fmap_key.
  - destruct Hcs as (Hp & Hne & x & Hact & Hlive).
    cbn [activeTabId set_splitTabId]. rewrite Hact, switchTabTo_Some.
    destruct (switchTab_consistent x (set_splitTabId None s)) as (s' & Hs' & Hc' & _);
      [done..|].
    unfold on_state. cbn [page_state]. by rewrite Hs'.
Qed.

(** X10.  Every page reached from the first tab satisfies the session
    invariant: each tab has its button and its webview, in tab order; the
    tab sequence is not empty; and the active id is the id of a tab. *)
Theorem reachable_consistent (p : Page) :
  reachable p -> consistent (page_state p).
Proof.
  induction 1 as [now|a p Hr IH Hen].
  - cbn [perform]. unfold on_state, bind, ret, default_activate.
    destruct (createTab_consistent now default_url initial initial_paired)
      as (s' & Hs' & Hc' & _).
    cbn [page_state initial_page]. by rewrite Hs'.
  - destruct a; cbn [perform enabled] in *; unfold on_state.
    + destruct IH as (Hp & _).
      destruct (createTab_consistent now default_url (page_state p) Hp)
        as (s' & Hs' & Hc' & _).
      unfold bind, ret, default_activate. by rewrite Hs'.
    + destruct IH as (Hp & Hne & _).
      destruct (switchTab_consistent tabId (page_state p)) as (s' & Hs' & Hc' & _);
        [done|done|by apply paired_live_button|].
      by rewrite Hs'.
    + destruct (closeTab_consistent tabId (page_state p)) as (s' & Hs' & Hc');
        [done|apply paired_live_button; [apply IH|done]|].
      by rewrite Hs'.
    + pose proof (goBack_shape (page_state p)) as Hs.
      destruct (goBack _); by eapply consistent_same_shape.
    + pose proof (goForward_shape (page_state p)) as Hs.
      destruct (goForward _); by eapply consistent_same_shape.
    + pose proof (reload_shape (page_state p)) as Hs.
      destruct (reload _); by eapply consistent_same_shape.
    + by apply toggleSplitView_consistent.
    + cbn. by eapply consistent_same_shape, focus_and_type_shape.
    + pose proof (urlInput_keydown_shape key (page_state p)) as Hs.
      destruct (urlInput_keydown _ _); by eapply consistent_same_shape.
    + pose proof (dispatch_consistent now tabId e (page_state p) IH) as Hs.
      by destruct (dispatch _ _ _ _).
    + cbn. by eapply consistent_same_shape, view_reports_shape.
Qed.

(** *** What a tab switch shows *)

Ltac st :=
  cbn [final tabs activeTabId isSplitView splitTabId tabBar viewsContainer
       urlInput_value urlInput_focused btnBack_disabled btnForward_disabled
       loadingBar_loading loadingBar_complete timeouts document_title
       set_tabs set_activeTabId set_tabBar set_viewsContainer
       set_urlInput_value set_navButtons set_loadingBar set_timeouts
       set_document_title set_urlInput_focused set_isSplitView set_splitTabId
       subst] in *.

Lemma find_view_fmap (f : ViewEl -> ViewEl) (views : list ViewEl) (x : jsstring) :
  (forall v, viewEl_id (f v) = viewEl_id v) ->
  list_find (fun v => viewEl_id v = x) (f <$> views) =
    match list_find (fun v => viewEl_id v = x) views with
    | Some (k, v) => Some (k, f v)
    | None => None
    end.
Proof.
  intros Hf. rewrite (find_fmap_key viewEl_id) by done.
  by destruct (list_find _ views) as [[??]|].
Qed.

Lemma find_tab_fmap (f : TabEl -> TabEl) (els : list TabEl) (x : jsstring) :
  (forall e, tabEl_id (f e) = tabEl_id e) ->
  list_find (fun e => tabEl_id e = x) (f <$> els) =
    match list_find (fun e => tabEl_id e = x) els with
    | Some (k, e) => Some (k, f e)
    | None => None
    end.
Proof.
  intros Hf. rewrite (find_fmap_key tabEl_id) by done.
  by destruct (list_find _ els) as [[??]|].
Qed.

(** The views after the visibility sweep for [tabId], with the view at
    [osplit] (if any) shown again. *)
Lemma swept_display (views : list ViewEl) (tabId : jsstring) (osplit : option nat)
    (j : nat) (v : ViewEl) :
  match osplit with
  | Some k => alter (viewEl_set_display DisplayFlex) k
  | None => fun l => l
  end ((fun w => viewEl_set_display
                   (if bool_decide (viewEl_id w = js "view-" ++ tabId)
                    then DisplayFlex else DisplayNone) w) <$> views) !! j = Some v ->
  (viewEl_display v = DisplayFlex \/ viewEl_display v = DisplayNone) /\
  (viewEl_display v = DisplayFlex <->
     viewEl_id v = js "view-" ++ tabId \/ osplit = Some j).
Proof.
  assert (forall w : ViewEl,
    ((fun w => viewEl_set_display
                 (if bool_decide (viewEl_id w = js "view-" ++ tabId)
                  then DisplayFlex else DisplayNone) w) <$> views) !! j = Some w ->
    (viewEl_display w = DisplayFlex \/ viewEl_display w = DisplayNone) /\
    (viewEl_display w = DisplayFlex <-> viewEl_id w = js "view-" ++ tabId)) as Hsweep.
  { intros w (w0 & -> & _)%list_lookup_fmap_Some.
    cbn [viewEl_display viewEl_id viewEl_set_display].
    case_bool_decide; split; auto; split; done. }
  destruct osplit as [k|].
  - destruct (decide (k = j)) as [->|Hne].
    + rewrite list_lookup_alter_eq. intros (w & Hw & ->)%fmap_Some.
      cbn [viewEl_display viewEl_set_display]. split; [by left|]. split; auto.
    + rewrite list_lookup_alter_ne by done. intros Hv.
      destruct (Hsweep v Hv) as [? Hiff]. split; [done|].
      rewrite Hiff. split; [auto|]. intros [?|[= ?]]; done.
  - intros Hv. destruct (Hsweep v Hv) as [? Hiff]. split; [done|].
    rewrite Hiff. split; [auto|]. by intros [?|?].
Qed.

Lemma switchTab_elements (tabId : jsstring) (s : State) (i : nat) (e : TabEl) :
  getTabElById (js "btn-" ++ tabId) s = Some (i, e) ->
  exists s',
    switchTab tabId s = Ok tt s' /\
    tabBar s' = alter (tabEl_set_active true) i
                  (tabEl_set_active false <$> tabBar s) /\
    viewsContainer s' =
      match split_partner s with
      | Some k => alter (viewEl_set_display DisplayFlex) k
      | None => fun l => l
      end ((fun w => viewEl_set_display
              (if bool_decide (viewEl_id w = js "view-" ++ tabId)
               then DisplayFlex else DisplayNone) w) <$> viewsContainer s).
Proof.
  intros He. unfold split_partner.
  unfold switchTab, bind, modify, get, ret, throw, getActiveWebview,
    updateNavigationButtons, getTabElById, getViewElById in *.
  st. rewrite find_tab_fmap by done. rewrite He. st.
  rewrite find_view_fmap by done.
  destruct (list_find (fun v => viewEl_id v = js "view-" ++ tabId) (viewsContainer s))
    as [[k v]|] eqn:Hview; st.
  - unfold bind, modify, ret, getActiveWebview, getViewElById. st.
    rewrite find_view_fmap by done. rewrite Hview. st.
    destruct (isSplitView s && _); st.
    + rewrite find_view_fmap by done.
      destruct (list_find
                  (fun v0 => viewEl_id v0 = js "view-" ++ subst (splitTabId s))
                  (viewsContainer s)) as [[k2 w]|]; cbn; eauto.
    + eauto.
  - destruct (isSplitView s && _); st.
    + rewrite find_view_fmap by done.
      destruct (list_find
                  (fun v0 => viewEl_id v0 = js "view-" ++ subst (splitTabId s))
                  (viewsContainer s)) as [[k2 w]|]; cbn; eauto.
    + eauto.
Qed.

Lemma active_button (i j : nat) (b : TabEl) (els : list TabEl) :
  alter (tabEl_set_active true) i (tabEl_set_active false <$> els) !! j = Some b ->
  (tabEl_active b = true <-> j = i).
Proof.
  destruct (decide (i = j)) as [->|Hne].
  - rewrite list_lookup_alter_eq. intros (b0 & _ & ->)%fmap_Some. done.
  - rewrite list_lookup_alter_ne by done.
    intros (b0 & -> & _)%list_lookup_fmap_Some. cbn. split; [done|]. by intros ->.
Qed.

(** X9.  After [switchTab] on a tab with a button, exactly the button found for
    it carries the [active] class, and every webview is either shown or
    hidden: shown are the views with the tab's view id and, in split view,
    the split partner's view; all others are hidden. *)
Theorem switchTab_shows (tabId : jsstring) (s : State) (i : nat) (e : TabEl) :
  getTabElById (js "btn-" ++ tabId) s = Some (i, e) ->
  exists s',
    switchTab tabId s = Ok tt s' /\
    (forall j b, tabBar s' !! j = Some b -> (tabEl_active b = true <-> j = i)) /\
    (forall j v, viewsContainer s' !! j = Some v ->
       (viewEl_display v = DisplayFlex \/ viewEl_display v = DisplayNone) /\
       (viewEl_display v = DisplayFlex <->
          viewEl_id v = js "view-" ++ tabId \/
          (isSplitView s = true /\
           from_option truthy false (splitTabId s) = true /\
           fst <$> getViewElById (js "view-" ++ subst (splitTabId s)) s = Some j))).
Proof.
  intros He.
  assert (forall j, split_partner s = Some j <->
    isSplitView s = true /\ from_option truthy false (splitTabId s) = true /\
    fst <$> getViewElById (js "view-" ++ subst (splitTabId s)) s = Some j) as Hos.
  { intros j. unfold split_partner.
    destruct (isSplitView s), (from_option truthy false (splitTabId s)); cbn [andb];
      split; try done; by intros (? & ? & ?). }
  destruct (switchTab_elements tabId s i e He) as (s' & Hs' & Hb & Hv).
  exists s'. split_and!; [done| |].
  - intros j b. rewrite Hb. apply active_button.
  - intros j v. rewrite Hv. intros Hj.
    destruct (swept_display _ _ _ _ _ Hj) as [? Hiff]. split; [done|].
    by rewrite Hiff, Hos.
Qed.

Lemma switchTab_shows_witness :
  exists s',
    switchTab (js "tab-2") three_tabs = Ok tt s' /\
    (forall j b, tabBar s' !! j = Some b -> (tabEl_active b = true <-> j = 1%nat)) /\
    (forall j v, viewsContainer s' !! j = Some v ->
       (viewEl_display v = DisplayFlex \/ viewEl_display v = DisplayNone) /\
       (viewEl_display v = DisplayFlex <->
          viewEl_id v = js "view-" ++ js "tab-2" \/
          (isSplitView three_tabs = true /\
           from_option truthy false (splitTabId three_tabs) = true /\
           fst <$> getViewElById (js "view-" ++ subst (splitTabId three_tabs))
                     three_tabs = Some j))).
Proof.
  apply (switchTab_shows (js "tab-2") three_tabs 1
           {| tabEl_id := js "btn-tab-2"; tabEl_active := false;
              tabEl_title := js "New Tab" |}).
  vm_compute. reflexivity.
Defined.

(** *** Reachable pages *)

(** A page reached by opening two tabs and closing the first. *)
Lemma sample_reachable :
  reachable
    (perform (ClickTabClose (js "tab-1"))
       (perform (ClickNewTab 2) (perform (ClickNewTab 1) initial_page).2).2).2.
Proof.
  apply reachable_step; [apply reachable_step; [apply reachable_start|done]|].
  vm_compute. by eexists.
Qed.

Lemma reachable_consistent_witness :
  consistent
    (page_state
       (perform (ClickTabClose (js "tab-1"))
          (perform (ClickNewTab 2) (perform (ClickNewTab 1) initial_page).2).2).2).
Proof. apply reachable_consistent, sample_reachable. Defined.

Lemma formatUrl_Abrupt (input : jsstring) (e : Error) :
  formatUrl input = Abrupt e -> e = URIError.
Proof.
  unfold formatUrl, encodeURIComponent.
  repeat case_match; congruence.
Qed.

(** X11.  On a page that satisfies the session invariant no listener
    dereferences [null]: a click on a tab, on a close button, on the new-tab
    or the split-view button, a key in the address bar and every event of a
    webview run without a [TypeError]. *)
Theorem consistent_no_TypeError (a : Action) (p : Page) :
  consistent (page_state p) -> enabled a p -> (perform a p).1 <> Some TypeError.
Proof.
  intros Hr Hen. pose proof Hr as (Hp & Hne & x & Hact & Hlive).
  destruct a; cbn [perform enabled] in *; unfold on_state.
  - destruct (createTab_consistent now default_url (page_state p) Hp)
      as (s' & Hs' & _).
    unfold bind, ret, default_activate. by rewrite Hs'.
  - destruct (switchTab_consistent tabId (page_state p)) as (s' & Hs' & _);
      [done|done|by apply paired_live_button|].
    by rewrite Hs'.
  - destruct (closeTab_consistent tabId (page_state p)) as (s' & Hs' & _);
      [done|by apply paired_live_button|].
    by rewrite Hs'.
  - unfold goBack, getActiveWebview, callView, bind, modify, ret.
    by repeat case_match.
  - unfold goForward, getActiveWebview, callView, bind, modify, ret.
    by repeat case_match.
  - unfold reload, getActiveWebview, callView, bind, modify, ret.
    by repeat case_match.
  - unfold toggleSplitView.
    set (s := set_isSplitView _ _).
    destruct (isSplitView s && _) eqn:Hcond.
    + apply andb_true_iff in Hcond as [_ Hlen%bool_decide_eq_true].
      destruct (tabs s) as [|t1 [|t2 l]]; cbn in Hlen; [lia|lia|done].
    + cbn [activeTabId set_splitTabId]. subst s. st.
      rewrite Hact, switchTabTo_Some.
      destruct (switchTab_consistent x
                  (set_splitTabId None
                     (set_isSplitView (negb (isSplitView (page_state p)))
                        (page_state p)))) as (s' & Hs' & _); [done..|].
      unfold on_state. cbn [page_state]. by rewrite Hs'.
  - done.
  - unfold urlInput_keydown, navigateTo, getActiveWebview, bind, modify, get,
      ret, throw.
    repeat case_match; try done. simplify_eq.
    match goal with H : formatUrl _ = Abrupt _ |- _ =>
      apply formatUrl_Abrupt in H as -> end.
    done.
  - destruct e as [| |t|u|u|u]; cbn [dispatch].
    + unfold updateLoading, updateNavigationButtons, getActiveWebview, bind,
        modify, get, ret. by repeat case_match.
    + unfold updateLoading, updateNavigationButtons, getActiveWebview, bind,
        modify, get, ret. by repeat case_match.
    + unfold updateTitle, bind, modify, get, ret. by repeat case_match.
    + unfold updateUrl, updateNavigationButtons, getActiveWebview, bind,
        modify, get, ret. by repeat case_match.
    + unfold updateUrl, updateNavigationButtons, getActiveWebview, bind,
        modify, get, ret. by repeat case_match.
    + destruct (createTab_consistent now u (page_state p) Hp) as (s' & Hs' & _).
      unfold bind, ret, default_activate. by rewrite Hs'.
  - done.
Qed.

Lemma consistent_no_TypeError_witness :
  (perform (ClickTabClose (js "tab-1"))
     {| page_state := two_tabs; container_display := ContainerUnset;
        container_gridTemplateColumns := []; btnSplitView_active := false |}).1
  <> Some TypeError.
Proof.
  apply consistent_no_TypeError.
  - split_and!.
    + split; vm_compute; reflexivity.
    + vm_compute. discriminate.
    + exists (js "tab-2"). split; [vm_compute; reflexivity|].
      eexists. split; [right; left; reflexivity|]. vm_compute. reflexivity.
  - vm_compute. by eexists.
Defined.

(** *** Events of a closed tab *)

Lemma NoDup_delete_other (l : list TabData) (i : nat) (t t' : TabData) :
  NoDup (id <$> l) -> l !! i = Some t -> t' ∈ delete i l -> id t' <> id t.
Proof.
  intros Hnd Hi Hin. rewrite delete_take_drop in Hin.
  rewrite <- (take_drop_middle l i t Hi), fmap_app, fmap_cons in Hnd.
  apply NoDup_app in Hnd as (_ & Hout & Hnd).
  apply NoDup_cons in Hnd as [Hnotin _].
  apply elem_of_app in Hin as [Hin|Hin].
  - intros Heq. apply (Hout (id t')); [by apply list_elem_of_fmap_2|].
    rewrite Heq. apply list_elem_of_here.
  - intros Heq. apply Hnotin. rewrite <- Heq. by apply list_elem_of_fmap_2.
Qed.

(** X12.  Late events are harmless: once a tab with a unique id is closed, its id
    is no longer live, and the load, title and navigation events its webview
    may still deliver leave the state exactly as it is. *)
Theorem closed_tab_events_absorbed (s : State) (tabId : jsstring) :
  paired s -> NoDup (id <$> tabs s) -> (2 <= length (tabs s))%nat ->
  live tabId s ->
  exists s',
    closeTab tabId s = Ok tt s' /\ ~ live tabId s' /\
    forall now e, (forall u, e <> NewWindow u) -> dispatch now tabId e s' = Ok tt s'.
Proof.
  intros Hp Hnd Hlen Hlive.
  destruct (live_find s tabId Hlive) as (i & t & Hfind).
  pose proof Hfind as (Hi & Hid & _)%list_find_Some.
  pose proof (lookup_lt_Some _ _ _ Hi) as Hlt.
  assert (forall t', t' ∈ delete i (tabs s) -> id t' <> tabId) as Hgone.
  { intros t' Hin. rewrite <- Hid. by eapply NoDup_delete_other. }
  assert (exists s', closeTab tabId s = Ok tt s' /\ paired s' /\
            tabs s' = delete i (tabs s) /\ activeTabId s' <> Some tabId)
    as (s' & Hs' & Hp' & Ht' & Ha').
  { rewrite (closeTab_live s tabId i t) by done.
    destruct (neighbour_Some i (tabs s)) as (next & Hn & Hin & _); [done..|].
    case_bool_decide as Hactive.
    - rewrite Hn.
      destruct (switchTab_consistent (id next) (closed i s))
        as (s' & Hs' & (Hp' & _) & Ht' & Ha').
      + by apply closed_paired.
      + cbn. intros Hnil. rewrite Hnil in Hin. by apply elem_of_nil in Hin.
      + exists next. split; [by apply list_elem_of_In|done].
      + exists s'. split_and!; [done..|]. rewrite Ha'. intros [= Heq].
        by apply (Hgone next).
    - exists (closed i s). split_and!; [done|by apply closed_paired|done..]. }
  assert (~ live tabId s') as Hdead.
  { intros (t' & Hin%list_elem_of_In & Hid'). rewrite Ht' in Hin. by apply (Hgone t'). }
  exists s'. split_and!; [done..|].
  intros now e Hnw.
  assert (getTabElById (js "btn-" ++ tabId) s' = None) as Hbtn.
  { destruct (getTabElById _ s') as [p|] eqn:Hb; [|done].
    destruct Hdead. apply paired_live_button; [done|]. by rewrite Hb. }
  destruct e as [| |title|u|u|u]; cbn [dispatch].
  - by apply updateLoading_inactive.
  - by apply updateLoading_inactive.
  - unfold updateTitle, bind, modify, get, ret, strict_eq. rewrite Hbtn.
    by rewrite bool_decide_false.
  - by apply updateUrl_inactive.
  - by apply updateUrl_inactive.
  - by destruct (Hnw u).
Qed.

Lemma closed_tab_events_absorbed_witness :
  exists s',
    closeTab (js "tab-3") three_tabs = Ok tt s' /\ ~ live (js "tab-3") s' /\
    forall now e, (forall u, e <> NewWindow u) ->
      dispatch now (js "tab-3") e s' = Ok tt s'.
Proof.
  apply closed_tab_events_absorbed.
  - split; vm_compute; reflexivity.
  - vm_compute. repeat constructor; rewrite ?elem_of_cons, ?elem_of_nil;
      intros H; repeat destruct H as [H|H]; try discriminate H; done.
  - vm_compute. lia.
  - eexists. split; [right; right; left; reflexivity|]. vm_compute. reflexivity.
Defined.

(** *** Opening a tab and closing it again *)

(** X13.  A tab opened with a fresh id and closed straight away leaves the tab
    sequence, the buttons and the webviews as they were; the active tab
    afterwards is the last tab of the sequence, whichever tab was active
    before. *)
Theorem open_then_close (s : State) (now : N) (url : jsstring) :
  paired s -> tabs s <> [] ->
  ~ live (js "tab-" ++ numberToString now) s ->
  exists s1 s2 lastTab,
    createTab now url true s = Ok (js "tab-" ++ numberToString now) s1 /\
    closeTab (js "tab-" ++ numberToString now) s1 = Ok tt s2 /\
    tabs s2 = tabs s /\
    tabEl_id <$> tabBar s2 = tabEl_id <$> tabBar s /\
    viewEl_id <$> viewsContainer s2 = viewEl_id <$> viewsContainer s /\
    last (tabs s) = Some lastTab /\
    activeTabId s2 = Some (id lastTab).
Proof.
  intros Hp Hne Hfresh. set (newId := js "tab-" ++ numberToString now) in *.
  destruct (createTab_consistent now url s Hp)
    as (s1 & Hs1 & (Hp1 & _) & Ha1 & Ht1 & Hb1 & Hv1).
  fold newId in Hs1, Ha1, Ht1, Hb1, Hv1.
  set (t := {| id := newId; url := url; title := js "New Tab"; isLoading := true |}) in *.
  assert (list_find (fun t => id t = newId) (tabs s1) = Some (length (tabs s), t)) as Hfind.
  { rewrite Ht1, list_find_app_r by by apply not_live_find.
    cbn. rewrite decide_True by done. done. }
  assert (length (tabs s1) = S (length (tabs s))) as Hlen1.
  { rewrite Ht1, length_app. cbn. lia. }
  assert (0 < length (tabs s))%nat as Hpos by (destruct (tabs s); [done|cbn; lia]).
  assert (delete (length (tabs s)) (tabs s1) = tabs s) as Hdel.
  { rewrite Ht1. replace (tabs s ++ [t]) with (tabs s ++ t :: []) by done.
    by rewrite delete_middle, app_nil_r. }
  pose proof (closeTab_live s1 newId (length (tabs s)) t Hp1) as Hclose.
  rewrite bool_decide_true in Hclose by done.
  destruct (neighbour_Some (length (tabs s)) (tabs s1)) as (next & Hn & Hin & Hnext & _);
    [lia..|].
  rewrite Hn in Hclose. rewrite decide_False in Hnext by lia.
  assert (last (tabs s) = Some next) as Hlast.
  { rewrite last_lookup. replace (pred (length (tabs s))) with (length (tabs s) - 1)%nat by lia.
    rewrite Ht1, lookup_app_l in Hnext by lia.
    destruct (tabs s !! (length (tabs s) - 1)%nat) eqn:Hl; [by cbn in Hnext; subst|].
    apply lookup_ge_None in Hl. lia. }
  destruct (switchTab_ok (id next) (closed (length (tabs s)) s1)) as [s2 Hs2].
  { apply paired_button; [by apply closed_paired|]. cbn. by rewrite Hdel in *. }
  pose proof (switchTab_frame (id next) (closed (length (tabs s)) s1))
    as (Ht2 & Ha2 & Hb2 & Hv2 & _).
  rewrite Hs2 in Ht2, Ha2, Hb2, Hv2. cbn [final] in Ht2, Ha2, Hb2, Hv2.
  assert (length (tabEl_id <$> tabBar s) = length (tabs s)) as Hlb.
  { destruct Hp as [-> _]. by rewrite length_fmap. }
  assert (length (viewEl_id <$> viewsContainer s) = length (tabs s)) as Hlv.
  { destruct Hp as [_ ->]. by rewrite length_fmap. }
  exists s1, s2, next. split_and!; [done| | | | |done|done].
  - rewrite Hclose by (done || lia). done.
  - rewrite Ht2. cbn. done.
  - rewrite Hb2. cbn. rewrite list_fmap_delete, Hb1, <- Hlb.
    replace ((tabEl_id <$> tabBar s) ++ [js "btn-" ++ newId])
      with ((tabEl_id <$> tabBar s) ++ (js "btn-" ++ newId) :: []) by done.
    by rewrite delete_middle, app_nil_r.
  - rewrite Hv2. cbn. rewrite list_fmap_delete, Hv1, <- Hlv.
    replace ((viewEl_id <$> viewsContainer s) ++ [js "view-" ++ newId])
      with ((viewEl_id <$> viewsContainer s) ++ (js "view-" ++ newId) :: []) by done.
    by rewrite delete_middle, app_nil_r.
Qed.

Lemma open_then_close_witness :
  let s := final (switchTab (js "tab-1") two_tabs) in
  activeTabId s = Some (js "tab-1") /\
  exists s1 s2 lastTab,
    createTab 3 default_url true s = Ok (js "tab-" ++ numberToString 3) s1 /\
    closeTab (js "tab-" ++ numberToString 3) s1 = Ok tt s2 /\
    tabs s2 = tabs s /\
    tabEl_id <$> tabBar s2 = tabEl_id <$> tabBar s /\
    viewEl_id <$> viewsContainer s2 = viewEl_id <$> viewsContainer s /\
    last (tabs s) = Some lastTab /\
    activeTabId s2 = Some (id lastTab).
Proof.
  cbv zeta. split; [vm_compute; reflexivity|].
  apply open_then_close.
  - split; vm_compute; reflexivity.
  - vm_compute. discriminate.
  - intros (t & Hin & Hid). vm_compute in Hin.
    destruct Hin as [<-|[<-|[]]]; vm_compute in Hid; discriminate.
Defined.

Lemma createTabs_distinct_witness :
  exists ids st',
    createTabs [(1%N, default_url, true); (2%N, js "https://a.example/", false)]
      initial = Ok ids st' /\ NoDup ids.
Proof.
  apply createTabs_distinct. vm_compute.
  repeat constructor; rewrite ?elem_of_cons, ?elem_of_nil;
    intros H; repeat destruct H as [H|H]; try discriminate H; done.
Defined.

Lemma closeTab_never_empties_witness :
  tabs (final (closeTab (js "tab-9") two_tabs)) <> [] /\
  tabs (final (closeTab (js "tab-2") two_tabs)) <> [].
Proof.
  split; apply closeTab_never_empties; vm_compute; discriminate.
Defined.

(** *** Split view *)

(** X14.  Entering split view: with split view off and two or more tabs, the
    first two of them with different ids, a click on the split button turns
    the container into a two-column grid, shows exactly the first two
    webviews, and records the second tab as split partner; the tab sequence
    and the active id are not touched. *)
Theorem toggleSplitView_on (p : Page) (t1 t2 : TabData) (rest : list TabData) :
  isSplitView (page_state p) = false ->
  paired (page_state p) ->
  tabs (page_state p) = t1 :: t2 :: rest ->
  id t1 <> id t2 ->
  exists p',
    toggleSplitView p = (None, p') /\
    isSplitView (page_state p') = true /\
    splitTabId (page_state p') = Some (id t2) /\
    container_display p' = ContainerGrid /\
    container_gridTemplateColumns p' = js "1fr 1fr" /\
    btnSplitView_active p' = true /\
    tabs (page_state p') = tabs (page_state p) /\
    activeTabId (page_state p') = activeTabId (page_state p) /\
    forall j v, viewsContainer (page_state p') !! j = Some v ->
      viewEl_display v = if decide (j <= 1)%nat then DisplayFlex else DisplayNone.
Proof.
  intros Hoff [_ Hv] Ht Hne. unfold toggleSplitView. rewrite Hoff. st.
  rewrite Ht. cbn [negb andb length]. rewrite bool_decide_true by lia.
  rewrite Ht in Hv.
  destruct (viewsContainer (page_state p)) as [|w1 [|w2 ws]] eqn:Hws; [done..|].
  rewrite !fmap_cons in Hv.
  assert (viewEl_id w1 = js "view-" ++ id t1) as Hw1 by congruence.
  assert (viewEl_id w2 = js "view-" ++ id t2) as Hw2 by congruence.
  clear Hv.
  eexists. split; [reflexivity|]. st. cbn [page_state container_display
    container_gridTemplateColumns btnSplitView_active].
  split_and!; [done..|].
  change (viewEl_set_display DisplayNone <$> w1 :: w2 :: ws)
    with (viewEl_set_display DisplayNone w1 :: viewEl_set_display DisplayNone w2
            :: (viewEl_set_display DisplayNone <$> ws)).
  cbn [list_find]. cbn [viewEl_id viewEl_set_display].
  rewrite (decide_True (P := viewEl_id w1 = js "view-" ++ id t1)) by done.
  cbn [fmap option_fmap option_map prod_map alter list_alter].
  cbn [list_find]. cbn [viewEl_id viewEl_set_display].
  rewrite decide_False by (rewrite Hw1; intros Heq%app_inv_head; congruence).
  rewrite (decide_True (P := viewEl_id w2 = js "view-" ++ id t2)) by done.
  cbn -[decide].
  intros [|[|j]] v; cbn -[decide].
  - by intros [= <-].
  - by intros [= <-].
  - intros (w & -> & _)%list_lookup_fmap_Some. done.
Qed.

Lemma toggleSplitView_on_witness :
  exists p',
    toggleSplitView
      {| page_state := three_tabs; container_display := ContainerUnset;
         container_gridTemplateColumns := []; btnSplitView_active := false |}
    = (None, p') /\
    splitTabId (page_state p') = Some (js "tab-2") /\
    activeTabId (page_state p') = Some (js "tab-3") /\
    viewEl_display <$> viewsContainer (page_state p')
      = [DisplayFlex; DisplayFlex; DisplayNone].
Proof.
  destruct (toggleSplitView_on
              {| page_state := three_tabs; container_display := ContainerUnset;
                 container_gridTemplateColumns := []; btnSplitView_active := false |}
              {| id := js "tab-1"; url := js "home.html"; title := js "New Tab";
                 isLoading := true |}
              {| id := js "tab-2"; url := js "home.html"; title := js "New Tab";
                 isLoading := true |}
              [{| id := js "tab-3"; url := js "home.html"; title := js "New Tab";
                  isLoading := true |}])
    as (p' & Hp' & _ & Hsplit & _ & _ & _ & _ & Hact & _).
  - reflexivity.
  - split; vm_compute; reflexivity.
  - vm_compute. reflexivity.
  - vm_compute. discriminate.
  - exists p'. split; [done|]. split; [done|]. split; [by rewrite Hact|].
    assert (p' = (toggleSplitView
      {| page_state := three_tabs; container_display := ContainerUnset;
         container_gridTemplateColumns := []; btnSplitView_active := false |}).2)
      as -> by by rewrite Hp'.
    vm_compute. reflexivity.
Defined.

(** X15.  Leaving split view, or asking for it with a single tab: whenever split
    view was on or there are fewer than two tabs, a click on the split
    button ends in the single-pane layout, with no split partner, the active
    tab's button highlighted and exactly the active tab's webviews shown.
    The flag [isSplitView] is flipped all the same. *)
Theorem toggleSplitView_single_pane (p : Page) (tabId : jsstring) (i : nat) (e : TabEl) :
  isSplitView (page_state p) = true \/ (length (tabs (page_state p)) < 2)%nat ->
  activeTabId (page_state p) = Some tabId ->
  getTabElById (js "btn-" ++ tabId) (page_state p) = Some (i, e) ->
  exists p',
    toggleSplitView p = (None, p') /\
    isSplitView (page_state p') = negb (isSplitView (page_state p)) /\
    splitTabId (page_state p') = None /\
    container_display p' = ContainerBlock /\
    container_gridTemplateColumns p' = [] /\
    btnSplitView_active p' = negb (isSplitView (page_state p)) /\
    tabs (page_state p') = tabs (page_state p) /\
    activeTabId (page_state p') = Some tabId /\
    (forall j b, tabBar (page_state p') !! j = Some b ->
       (tabEl_active b = true <-> j = i)) /\
    (forall j v, viewsContainer (page_state p') !! j = Some v ->
       viewEl_display v =
         if bool_decide (viewEl_id v = js "view-" ++ tabId)
         then DisplayFlex else DisplayNone).
Proof.
  intros Hcase Hact Hbtn. unfold toggleSplitView. st.
  assert (negb (isSplitView (page_state p))
          && bool_decide (2 <= length (tabs (page_state p)))%nat = false) as ->.
  { destruct Hcase as [->|Hlt]; [done|].
    rewrite bool_decide_false by lia. apply andb_false_r. }
  rewrite Hact, switchTabTo_Some.
  set (s := set_splitTabId None _).
  destruct (switchTab_elements tabId s i e Hbtn) as (s' & Hs' & Hb & Hv).
  pose proof (switchTab_frame tabId s) as (Ht & Ha & _ & _ & Hsv & Hsp).
  rewrite Hs' in Ht, Ha, Hsv, Hsp. cbn [final] in Ht, Ha, Hsv, Hsp.
  unfold on_state. cbn [page_state container_display
    container_gridTemplateColumns btnSplitView_active]. rewrite Hs'.
  eexists. split; [reflexivity|].
  cbn [page_state container_display container_gridTemplateColumns
       btnSplitView_active].
  split_and!; [done..| |].
  - intros j b. rewrite Hb. apply active_button.
  - assert (split_partner s = None) as Hnone.
    { unfold split_partner. subst s. st. cbn [from_option]. by rewrite andb_false_r. }
    rewrite Hv, Hnone. intros j v (w & -> & _)%list_lookup_fmap_Some. done.
Qed.

Lemma toggleSplitView_single_pane_witness :
  exists p',
    toggleSplitView
      {| page_state := one_tab; container_display := ContainerUnset;
         container_gridTemplateColumns := []; btnSplitView_active := false |}
    = (None, p') /\
    isSplitView (page_state p') = true /\
    splitTabId (page_state p') = None /\
    container_display p' = ContainerBlock.
Proof.
  destruct (toggleSplitView_single_pane
              {| page_state := one_tab; container_display := ContainerUnset;
                 container_gridTemplateColumns := []; btnSplitView_active := false |}
              (js "tab-1") 0
              {| tabEl_id := js "btn-tab-1"; tabEl_active := true;
                 tabEl_title := js "New Tab" |})
    as (p' & Hp' & Hflag & Hsplit & Hdisp & _).
  - right. vm_compute. lia.
  - vm_compute. reflexivity.
  - vm_compute. reflexivity.
  - exists p'. by split_and!.
Defined.

End Session.

(** ** The single-view address bar *)

Section SingleViewKeys.

(** X16.  Escape in the address bar always restores the address of the page
    shown: since the focus is dropped before the bar is updated, the guard
    of [updateUrlBar] lets the update through, whatever had been typed. *)
Theorem SingleView_escape_restores P (st : SingleView.State) :
  exists st',
    SingleView.urlInput_keydown P (js "Escape") st = Normal st' /\
    SingleView.urlInput_value st' = SingleView.getURL (SingleView.webview st) /\
    SingleView.urlInput_focused st' = false /\
    SingleView.webview st' = SingleView.webview st.
Proof.
  unfold SingleView.urlInput_keydown.
  rewrite bool_decide_false by (vm_compute; discriminate).
  rewrite bool_decide_true by done.
  eexists. split; [reflexivity|]. done.
Qed.

End SingleViewKeys.

(** ** The request filter of the main process *)

Section RequestFilter.

Import MainProcess.

Lemma startsWith_app (p s : jsstring) : startsWith (p ++ s) p = true.
Proof.
  induction p as [|c p IH]; cbn; [by destruct s|]. by rewrite N.eqb_refl.
Qed.

Lemma startsWith_split (s p : jsstring) :
  startsWith s p = true -> s = p ++ drop (length p) s.
Proof.
  revert s. induction p as [|c p IH]; intros [|d s]; cbn; try done.
  intros [->%N.eqb_eq Hs]%andb_true_iff. f_equal. by apply IH.
Qed.

Lemma replace_prefix (s p r : jsstring) :
  startsWith s p = true -> replace s p r = r ++ drop (length p) s.
Proof. intros H. destruct s; cbn [replace]; by rewrite H. Qed.

(** The filter of [t]-named pairs leaves the list alone when there are
    none. *)
Lemma delete_all_absent (params : list (jsstring * jsstring)) (t : jsstring) :
  has params t = false -> delete_all params t = params.
Proof.
  unfold has, delete_all. intros Hno%bool_decide_eq_false.
  induction params as [|q params IH]; [done|].
  rewrite filter_cons. case_decide as Hq.
  - f_equal. apply IH. intros Hex. apply Hno. by apply Exists_cons_tl.
  - destruct Hno. apply Exists_cons_hd. by destruct (decide (q.1 = t)).
Qed.

(** The loop over a list of tracker names. *)
Lemma foldl_strip (ts : list jsstring) (params : list (jsstring * jsstring)) (c : bool) :
  foldl (fun acc t => if has acc.1 t then (delete_all acc.1 t, true) else acc)
        (params, c) ts =
  (filter (fun q => q.1 ∉ ts) params,
   c || bool_decide (Exists (fun q => q.1 ∈ ts) params)).
Proof.
  revert params c. induction ts as [|t ts IH]; intros params c.
  - cbn [foldl]. f_equal.
    + symmetry. induction params as [|q params IHp]; [done|].
      rewrite filter_cons, decide_True by apply not_elem_of_nil. by f_equal.
    + rewrite bool_decide_false; [by rewrite orb_false_r|].
      intros (q & _ & Hq%elem_of_nil)%Exists_exists. done.
  - cbn [foldl fst].
    assert ((if has params t then (delete_all params t, true) else (params, c))
            = (delete_all params t, c || has params t)) as ->.
    { destruct (has params t) eqn:Hh; [by rewrite orb_true_r|].
      by rewrite delete_all_absent, orb_false_r. }
    rewrite IH. unfold delete_all, has. f_equal.
    + rewrite list_filter_filter. apply list_filter_iff. intros q.
      rewrite not_elem_of_cons. tauto.
    + rewrite <- orb_assoc. f_equal.
      apply eq_true_iff_eq. rewrite orb_true_iff, !bool_decide_eq_true.
      rewrite !Exists_exists. split.
      * intros [(q & Hin & Hq)|(q & Hin & Hq)].
        -- exists q. split; [done|]. rewrite Hq. apply list_elem_of_here.
        -- apply list_elem_of_filter in Hin as [_ Hin].
           exists q. split; [done|]. by apply list_elem_of_further.
      * intros (q & Hin & Hq). destruct (decide (q.1 = t)) as [Heq|Hne].
        -- left. by exists q.
        -- right. exists q. split; [by apply list_elem_of_filter|].
           apply elem_of_cons in Hq as [?|?]; done.
Qed.

Lemma stripTrackers_eq (params : list (jsstring * jsstring)) :
  stripTrackers params =
    (filter (fun q => q.1 ∉ trackers) params,
     bool_decide (Exists (fun q => q.1 ∈ trackers) params)).
Proof. unfold stripTrackers. by rewrite foldl_strip. Qed.

(** X17.  A plain-http request to a host other than localhost and 127.0.0.1 is
    redirected to the same address with the scheme replaced by https, and
    nothing else changed; the address it is redirected to is not upgraded a
    second time. *)
Theorem onBeforeRequest_upgrade (Base : Type) parseURL URL_toString (url : jsstring) :
  startsWith url (js "http://") = true ->
  startsWith url (js "http://localhost") = false ->
  startsWith url (js "http://127.0.0.1") = false ->
  exists rest,
    url = js "http://" ++ rest /\
    onBeforeRequest Base parseURL URL_toString url = Redirect (js "https://" ++ rest) /\
    startsWith (js "https://" ++ rest) (js "http://") = false.
Proof.
  intros Hhttp Hlocal Hloop. exists (drop (length (js "http://")) url).
  split; [by apply startsWith_split|]. split; [|done].
  unfold onBeforeRequest. rewrite Hhttp, Hlocal, Hloop. cbn [andb negb].
  by rewrite replace_prefix.
Qed.

Lemma onBeforeRequest_upgrade_witness :
  exists rest,
    js "http://example.com/a?b=http://c" = js "http://" ++ rest /\
    onBeforeRequest unit (fun _ => None) (fun _ => [])
      (js "http://example.com/a?b=http://c") = Redirect (js "https://" ++ rest) /\
    startsWith (js "https://" ++ rest) (js "http://") = false.
Proof. apply onBeforeRequest_upgrade; reflexivity. Defined.

(** X18.  A request that is not upgraded is let through when its address cannot
    be parsed or carries none of the five tracking parameters.  Otherwise it
    is redirected to the address with exactly the tracking parameters
    removed, the other parameters kept in their order, and filtering those
    again finds nothing to remove. *)
Theorem onBeforeRequest_strip (Base : Type) parseURL URL_toString (url : jsstring) :
  startsWith url (js "http://") = false \/
  startsWith url (js "http://localhost") = true \/
  startsWith url (js "http://127.0.0.1") = true ->
  onBeforeRequest Base parseURL URL_toString url =
    match parseURL url with
    | Some (base, params) =>
      if bool_decide (Exists (fun q => q.1 ∈ trackers) params)
      then Redirect (URL_toString (base, filter (fun q => q.1 ∉ trackers) params))
      else Continue
    | None => Continue
    end /\
  forall base params,
    parseURL url = Some (base, params) ->
    stripTrackers (filter (fun q => q.1 ∉ trackers) params) =
      (filter (fun q => q.1 ∉ trackers) params, false).
Proof.
  intros Hcase. split.
  - unfold onBeforeRequest.
    assert (startsWith url (js "http://")
            && negb (startsWith url (js "http://localhost"))
            && negb (startsWith url (js "http://127.0.0.1")) = false) as ->.
    { destruct Hcase as [-> | [-> | ->]];
        [done|by rewrite andb_false_r|by rewrite andb_false_r]. }
    destruct (parseURL url) as [[base params]|]; [|done].
    by rewrite stripTrackers_eq.
  - intros base params _. rewrite stripTrackers_eq. f_equal.
    + rewrite list_filter_filter. apply list_filter_iff. tauto.
    + apply bool_decide_eq_false. intros (q & Hin & Hq)%Exists_exists.
      by apply list_elem_of_filter in Hin as [? _].
Qed.

Lemma onBeforeRequest_strip_witness :
  onBeforeRequest unit
    (fun _ => Some (tt, [(js "id", js "7"); (js "utm_source", js "x");
                         (js "q", js "a"); (js "fbclid", js "y")]))
    (fun u => js "https://example.com/?" ++ concat ((fun q => q.1 ++ js "=" ++ q.2 ++ js "&") <$> u.2))
    (js "https://example.com/?id=7&utm_source=x&q=a&fbclid=y")
  = Redirect (js "https://example.com/?id=7&q=a&").
Proof.
  destruct (onBeforeRequest_strip unit
    (fun _ => Some (tt, [(js "id", js "7"); (js "utm_source", js "x");
                         (js "q", js "a"); (js "fbclid", js "y")]))
    (fun u => js "https://example.com/?" ++ concat ((fun q => q.1 ++ js "=" ++ q.2 ++ js "&") <$> u.2))
    (js "https://example.com/?id=7&utm_source=x&q=a&fbclid=y")) as [Heq _].
  - left. reflexivity.
  - rewrite Heq. vm_compute. reflexivity.
Defined.

(** ** Screenshot file names *)

(** X19.  The name under which a screenshot is saved is [Zy-Screenshot-], the
    clock's ISO string with every colon and dot turned into a dash, and
    [.png]: between prefix and extension there is neither colon nor dot, and
    every other character of the ISO string is kept in its place. *)
Theorem screenshotFileName_shape (iso : jsstring) :
  exists ts,
    screenshotFileName iso = js "Zy-Screenshot-" ++ ts ++ js ".png" /\
    length ts = length iso /\
    (0x3A%N ∉ ts) /\ (0x2E%N ∉ ts) /\
    forall k c, iso !! k = Some c ->
      ts !! k = Some (if decide (c = 0x3A%N \/ c = 0x2E%N) then 0x2D%N else c).
Proof.
  exists (timestamp iso). unfold timestamp. split_and!; [done|by rewrite length_fmap| | |].
  - intros (c & Heq & _)%list_elem_of_fmap.
    destruct (N.eqb_spec c 0x3A); [done|]. destruct (N.eqb_spec c 0x2E); [done|].
    cbn in Heq. congruence.
  - intros (c & Heq & _)%list_elem_of_fmap.
    destruct (N.eqb_spec c 0x3A); [done|]. destruct (N.eqb_spec c 0x2E); [done|].
    cbn in Heq. congruence.
  - intros k c Hk. apply list_lookup_fmap_Some. exists c. split; [|exact Hk].
    destruct (N.eqb_spec c 0x3A), (N.eqb_spec c 0x2E); cbn;
      case_decide; try done; tauto.
Qed.

End RequestFilter.

(** ** Loading the settings *)

Section SettingsLoad.

Import Settings.

(** X20.  However the stored text reads, after [loadSettings] at start-up every
    recognised setting is defined, and [location] is a truthy value or the
    default download path. *)
Theorem loadSettings_defined JSON_parse (saved : option jsstring)
    (defaultPath : jsstring) (key : string) :
  let loaded := loadSettings JSON_parse saved defaultPath defaultSettings in
  (is_Some (defaultSettings !! key) -> is_Some (loaded !! key)) /\
  (truthyValue (loaded !! "location"%string) = true \/
   loaded !! "location"%string = Some (VString defaultPath)).
Proof.
  cbv zeta. unfold loadSettings.
  set (cs := match saved with Some _ => _ | None => _ end).
  assert (is_Some (defaultSettings !! key) -> is_Some (cs !! key)) as Hcs.
  { intros Hk. subst cs. destruct saved as [text|]; [|done].
    destruct (truthy text); [|done].
    destruct (JSON_parse text) as [parsed|]; [|done].
    apply lookup_union_is_Some. by right. }
  destruct (truthyValue (cs !! "location"%string)) eqn:Hloc; cbn [negb].
  - split; [done|by left].
  - split; [|right; by rewrite lookup_insert_eq].
    intros Hk. destruct (decide (key = "location"%string)) as [->|Hne].
    + rewrite lookup_insert_eq. by eexists.
    + rewrite lookup_insert_ne by done. auto.
Qed.

(** X21.  A stored object overrides the defaults key by key and leaves the other
    defaults in place; only a falsy [location] is replaced, by the default
    download path. *)
Theorem loadSettings_merge JSON_parse (text : jsstring) (defaultPath : jsstring)
    (parsed : gmap string Value) (key : string) :
  text <> [] -> JSON_parse text = Some parsed -> key <> "location"%string ->
  loadSettings JSON_parse (Some text) defaultPath defaultSettings !! key =
    match parsed !! key with
    | Some v => Some v
    | None => defaultSettings !! key
    end.
Proof.
  intros Hne Hp Hk. unfold loadSettings.
  destruct text as [|c text]; [done|]. cbn [truthy]. rewrite Hp.
  destruct (negb _).
  - rewrite lookup_insert_ne by done. rewrite lookup_union.
    by destruct (parsed !! key), (defaultSettings !! key).
  - rewrite lookup_union.
    by destruct (parsed !! key), (defaultSettings !! key).
Qed.

Lemma loadSettings_merge_witness :
  let text := js "{" ++ [0x22%N] ++ js "theme" ++ [0x22%N] ++ js ":"
              ++ [0x22%N] ++ js "light" ++ [0x22%N] ++ js "}" in
  loadSettings (fun _ => Some {[ "theme"%string := VString (js "light") ]})
    (Some text) (js "/home/u/Downloads") defaultSettings !! "theme"%string
  = Some (VString (js "light")).
Proof.
  cbv zeta.
  rewrite (loadSettings_merge _ _ _ {[ "theme"%string := VString (js "light") ]});
    [reflexivity|done|reflexivity|done].
Defined.

End SettingsLoad.
